(** * Cargo lock file reconciliation: [lib/modules/manager/cargo/artifacts.ts]

    A shallow embedding of [cargoUpdate], [cargoUpdatePrecise],
    [updateArtifactsImpl] and [updateArtifacts], and the properties of the
    reconciliation engine proved about them.

    The TypeScript code is asynchronous and effectful: it reads and writes the
    working tree, shells out to [cargo], logs, and may throw.  It is embedded
    in a small monad [M] that threads the working tree ([World]), carries a
    JavaScript completion (normal value or thrown error) and records the
    observable actions of a call as a list of [Event]s.  Every function the
    file imports from elsewhere in the repository is a field of the class
    [Collaborators]; the theorems hold for every implementation of them. *)

From Stdlib Require Import Ascii.
From stdpp Require Import base strings list gmap.

Open Scope string_scope.
Open Scope list_scope.

(** ** Data model *)

(** [Upgrade] (manager/types.ts), the fields the cargo manager reads.  All of
    them are optional in the TypeScript type; [None] is [undefined]. *)
Record Upgrade := {
  depName : option string;
  packageName : option string;
  datasource : option string;
  lockedVersion : option string;
  newVersion : option string;
}.

#[global] Instance Upgrade_eq_dec : EqDecision Upgrade.
Proof. solve_decision. Defined.

(** [UpdateArtifactsConfig]: [isLockFileMaintenance] is an optional boolean
    (absent is falsy, so [false]); [constraints] is an optional
    [Record<string, string>]. *)
Record UpdateArtifactsConfig := {
  isLockFileMaintenance : bool;
  constraints : option (gmap string string);
}.

(** [UpdateArtifact], the argument of [updateArtifacts]. *)
Record UpdateArtifact := {
  packageFileName : string;
  updatedDeps : list Upgrade;
  newPackageFileContent : string;
  config : UpdateArtifactsConfig;
}.

(** A [Buffer], the object [readLocalFile] returns when it is called without
    an encoding (lines 96 and 154): [ref] is the identity of the object, which
    is what [===] compares, [bytes] the content it holds. *)
Record Buffer := {
  ref : nat;
  bytes : string;
}.

#[global] Instance Buffer_eq_dec : EqDecision Buffer.
Proof. solve_decision. Defined.

(** [UpdateArtifactsResult]: the two shapes the cargo manager builds, a file
    addition [{ file: { type: 'addition', path, contents } }] and an artifact
    error [{ artifactError: { lockFile, stderr } }].  [contents] is what
    [readLocalFile(lockFileName)] returned: a [Buffer], or [null]. *)
Inductive UpdateArtifactsResult :=
| file_addition (path : string) (contents : option Buffer)
| artifactError (lockFile : string) (stderr : string).

#[global] Instance UpdateArtifactsResult_eq_dec : EqDecision UpdateArtifactsResult.
Proof. solve_decision. Defined.

(** The object a failing collaborator throws: [err.message] and [err.stderr]
    (only the errors of [exec] carry a [stderr]). *)
Record JsError := {
  message : string;
  stderr : option string;
}.

#[global] Instance JsError_eq_dec : EqDecision JsError.
Proof. solve_decision. Defined.

(** [ExecOptions] (util/exec/types.ts) as the two call sites fill it. *)
Record ToolConstraint := {
  toolName : string;
  constraint : option string;
}.

Record ExecOptions := {
  extraEnv : list (string * string);
  docker : unit;
  toolConstraints : list ToolConstraint;
}.

(** ** Observable actions *)

Inductive LogLevel := Debug | Warn.

(** What a call does, in order.  [EvCall] marks the entry into
    [updateArtifactsImpl] with the upgrades and the recursion limit it was
    called with; the other events are the calls of [logger], [writeLocalFile]
    and [exec]. *)
Inductive Event :=
| EvCall (deps : list Upgrade) (recursionLimit : nat)
| EvLog (level : LogLevel) (msg : string)
| EvWriteLocalFile (path content : string)
| EvExec (cmds : list string) (opts : ExecOptions).

(** ** Completions and the monad *)

(** How an [async] function ends: its promise resolves with a value or rejects
    with the error thrown. *)
Inductive Completion (A : Type) :=
| Normal (a : A)
| Throw (e : JsError).
Arguments Normal {A} a.
Arguments Throw {A} e.

(** ** JavaScript helpers *)

(** Truthiness of a [string | null | undefined] value, returning the string
    when it is truthy: [null], [undefined] and the empty string are falsy. *)
Definition asTruthy (v : option string) : option string :=
  match v with
  | Some s => if String.eqb s "" then None else Some s
  | None => None
  end.

(** [a === b] for a [Buffer] [a] and a [Buffer | null] [b]: objects are
    strictly equal when they are the same object, whatever they hold. *)
Definition strictly_equal (a : Buffer) (b : option Buffer) : bool :=
  match b with
  | Some b => (ref a =? ref b)%nat
  | None => false
  end.

(** String coercion of a [string | undefined] value, as a template literal and
    [RegExp.prototype.test] perform it. *)
Definition js_String (v : option string) : string :=
  match v with
  | Some s => s
  | None => "undefined"
  end.

(** [s.includes(pat)]: [pat] occurs somewhere in [s]. *)
Fixpoint str_includes (pat s : string) : bool :=
  String.prefix pat s ||
  match s with
  | EmptyString => false
  | String _ s' => str_includes pat s'
  end.

(** [regEx(/error: package ID specification/).test(stderr)]: the pattern has no
    metacharacter, so the test is a substring search in the coerced argument. *)
Definition test_packageIdSpecification (stderr : option string) : bool :=
  str_includes "error: package ID specification" (js_String stderr).

(** Modelled from the spec: [coerceArray] of util/array.ts, which is not among
    the sources.  In the recovery filter a missing extraction entry is treated
    as an empty version list: an array is returned as it is, [null] and
    [undefined] become the empty array. *)
Definition coerceArray {A : Type} (input : option (list A)) : list A :=
  match input with
  | Some l => l
  | None => []
  end.

(** [arr.includes(x)] for a string array and an [x] that may be [undefined]:
    a string array holds no [undefined]. *)
Definition includes (arr : list string) (x : option string) : bool :=
  match x with
  | Some v => existsb (String.eqb v) arr
  | None => false
  end.

(** [versions?.get(name)] on a [Map<string, string[]> | null]; a [Map] keyed by
    strings has no entry for [undefined]. *)
Definition versions_get (versions : option (gmap string (list string)))
    (name : option string) : option (list string) :=
  match versions, name with
  | Some m, Some n => m !! n
  | _, _ => None
  end.

(** ** Collaborators *)

(** Everything [artifacts.ts] imports from the rest of the repository, over an
    abstract working tree [World].  The file-system and process functions take
    the world and return the new one.  [readLocalFile] is called in two
    forms: [fs_readLocalFile_buffer] is [readLocalFile(name)], which returns a
    [Buffer] object, and [fs_readLocalFile] is [readLocalFile(name, 'utf8')],
    which returns the content as a string; both return [null] when the file
    cannot be read.  Which object a read returns is the file system's to say
    (Node allocates a new one on every call).  [fs_writeLocalFile] and [proc_exec] may throw, and
    [proc_exec] may have changed the world before it does. *)
Class Collaborators (World : Type) := {
  (** [TEMPORARY_ERROR] of constants/error-messages.ts *)
  TEMPORARY_ERROR : string;
  (** [CrateDatasource.id] *)
  CrateDatasource_id : string;
  (** [quote] of shlex *)
  quote : string -> string;
  (** [getGitEnvironmentVariables] of util/git/auth.ts *)
  getGitEnvironmentVariables : list string -> list (string * string);
  (** [extractLockFileContentVersions] of ./locked-version.ts *)
  extractLockFileContentVersions : string -> option (gmap string (list string));
  fs_findLocalSiblingOrParent : string -> string -> World -> option string;
  fs_readLocalFile_buffer : string -> World -> option Buffer;
  fs_readLocalFile : string -> World -> option string;
  fs_writeLocalFile : string -> string -> World -> Completion unit * World;
  proc_exec : list string -> ExecOptions -> World -> Completion unit * World;
}.

Section Engine.

Context {World : Type} `{Collaborators World}.

(** A computation: from a working tree to a completion, the working tree it
    leaves and the events it emitted. *)
Definition M (A : Type) : Type := World -> Completion A * World * list Event.

#[global] Instance M_ret : MRet M := λ A a w, (Normal a, w, []).

#[global] Instance M_bind : MBind M := λ A B k m w,
  match m w with
  | (Normal a, w1, t1) => let '(r, w2, t2) := k a w1 in (r, w2, t1 ++ t2)
  | (Throw e, w1, t1) => (Throw e, w1, t1)
  end.

Definition throw {A : Type} (e : JsError) : M A := λ w, (Throw e, w, []).

(** [try { m } catch (err) { h err }]: the handler starts from the world the
    failed body left behind. *)
Definition try_catch {A : Type} (m : M A) (h : JsError -> M A) : M A := λ w,
  match m w with
  | (Throw e, w1, t1) => let '(r, w2, t2) := h e w1 in (r, w2, t1 ++ t2)
  | r => r
  end.

Definition emit (e : Event) : M unit := λ w, (Normal tt, w, [e]).

Definition logger_debug (msg : string) : M unit := emit (EvLog Debug msg).
Definition logger_warn (msg : string) : M unit := emit (EvLog Warn msg).

Definition findLocalSiblingOrParent (existingFileNameWithPath otherFileName : string)
    : M (option string) :=
  λ w, (Normal (fs_findLocalSiblingOrParent existingFileNameWithPath otherFileName w), w, []).

(** [readLocalFile(fileName)] *)
Definition readLocalFile (fileName : string) : M (option Buffer) :=
  λ w, (Normal (fs_readLocalFile_buffer fileName w), w, []).

(** [readLocalFile(fileName, 'utf8')] *)
Definition readLocalFile_utf8 (fileName : string) : M (option string) :=
  λ w, (Normal (fs_readLocalFile fileName w), w, []).

Definition writeLocalFile (fileName fileContent : string) : M unit := λ w,
  let '(r, w1) := fs_writeLocalFile fileName fileContent w in
  (r, w1, [EvWriteLocalFile fileName fileContent]).

(** [exec(cmd, opts)] takes one command or an array of them; a single command
    is the one-element array. *)
Definition exec (cmds : list string) (opts : ExecOptions) : M unit := λ w,
  let '(r, w1) := proc_exec cmds opts w in
  (r, w1, [EvExec cmds opts]).

(** ** The program *)

(** [config.constraints?.rust] *)
Definition constraints_rust (cfg : UpdateArtifactsConfig) : option string :=
  constraints cfg ≫= (.!! "rust").

(** [cargoUpdate] (lines 18-38) *)
Definition cargoUpdate (manifestPath : string) (isLockFileMaintenance : bool)
    (constraint : option string) : M unit :=
  let cmd :=
    "cargo update --config net.git-fetch-with-cli=true --manifest-path " +:+
    quote manifestPath in
  let cmd := if negb isLockFileMaintenance then cmd +:+ " --workspace" else cmd in
  let execOptions := {|
    extraEnv := getGitEnvironmentVariables ["cargo"];
    docker := tt;
    toolConstraints := [{| toolName := "rust"; constraint := constraint |}];
  |} in
  exec [cmd] execOptions.

(** [cargoUpdatePrecise] (lines 40-69): the [for ... of] loop pushes one command
    per dependency onto [cmds].  The non-null assertion of [dep.newVersion!]
    is erased at run time; an absent field is rendered by its string
    coercion, in the template and in the argument of [quote] alike. *)
Definition cargoUpdatePrecise (manifestPath : string) (updatedDeps : list Upgrade)
    (constraint : option string) : M unit :=
  let cmds := [
    "cargo update --config net.git-fetch-with-cli=true" +:+
    " --manifest-path " +:+ quote manifestPath +:+ " --workspace"
  ] in
  let cmds := fold_left (λ cmds dep,
    cmds ++ [
      "cargo update --config net.git-fetch-with-cli=true" +:+
      " --manifest-path " +:+ quote manifestPath +:+
      " --package " +:+
        quote (js_String (packageName dep) +:+ "@" +:+ js_String (lockedVersion dep)) +:+
      " --precise " +:+ quote (js_String (newVersion dep))
    ]) updatedDeps cmds in
  let execOptions := {|
    extraEnv := getGitEnvironmentVariables ["cargo"];
    docker := tt;
    toolConstraints := [{| toolName := "rust"; constraint := constraint |}];
  |} in
  exec cmds execOptions.

(** The choice of strategy, lines 121-151 of [updateArtifactsImpl]. *)
Definition invokeResolver (ua : UpdateArtifact) : M unit :=
  let packageFileName := packageFileName ua in
  let updatedDeps := updatedDeps ua in
  let config := config ua in
  if isLockFileMaintenance config then
    cargoUpdate packageFileName true (constraints_rust config)
  else
    let nonCrateDep :=
      find (λ dep, negb (bool_decide (datasource dep = Some CrateDatasource_id)))
        updatedDeps in
    let crateDepWithoutLockedVersion :=
      find (λ dep, negb (bool_decide (is_Some (asTruthy (lockedVersion dep)))) &&
                   bool_decide (datasource dep = Some CrateDatasource_id))
        updatedDeps in
    if bool_decide (is_Some nonCrateDep) || bool_decide (is_Some crateDepWithoutLockedVersion) then
      match crateDepWithoutLockedVersion with
      | Some _ => logger_warn "Missing locked version for dependency"
      | None => mret tt
      end ;;
      cargoUpdate packageFileName false (constraints_rust config)
    else
      cargoUpdatePrecise packageFileName updatedDeps (constraints_rust config).

(** The body of the [try] block, lines 118-167: write the manifest, run the
    resolver, read the lock file again and compare the two objects read. *)
Definition attempt (ua : UpdateArtifact) (lockFileName : string)
    (existingLockFileContent : Buffer)
    : M (option (list UpdateArtifactsResult)) :=
  writeLocalFile (packageFileName ua) (newPackageFileContent ua) ;;
  logger_debug ("Updating " +:+ lockFileName) ;;
  invokeResolver ua ;;
  logger_debug "Returning updated Cargo.lock" ;;
  newCargoLockContent ← readLocalFile lockFileName;
  if strictly_equal existingLockFileContent newCargoLockContent then
    logger_debug "Cargo.lock is unchanged" ;;
    mret None
  else
    mret (Some [file_addition lockFileName newCargoLockContent]).

(** The filter of lines 185-190: keep the upgrades whose [newVersion] is not
    among the versions the lock file has for their package. *)
Definition filterUpdatedDeps (versions : option (gmap string (list string)))
    (updatedDeps : list Upgrade) : list Upgrade :=
  filter (λ dep,
    negb (includes (coerceArray (versions_get versions (packageName dep))) (newVersion dep)) = true)
    updatedDeps.

(** The end of the [catch] block, lines 208-217. *)
Definition failed (lockFileName : string) (err : JsError)
    : M (option (list UpdateArtifactsResult)) :=
  logger_debug "Failed to update Cargo lock file" ;;
  mret (Some [artifactError lockFileName (message err)]).

(** [updateArtifactsImpl] (lines 77-219).  [recursionLimit] is the default
    parameter (10) or one less than the caller's, a natural number; the test
    [recursionLimit > 0] is the match on its successor form, and the three
    conditions of the [if] of lines 179-183 are checked together with it.
    [existingLockFileContent] is a [Buffer] or [null], and [lockFileName] a
    string or [null]: the test of line 98 is on an object and on a string. *)
Fixpoint updateArtifactsImpl (ua : UpdateArtifact) (recursionLimit : nat) {struct recursionLimit}
    : M (option (list UpdateArtifactsResult)) :=
  let packageFileName := packageFileName ua in
  let updatedDeps := updatedDeps ua in
  let newPackageFileContent := newPackageFileContent ua in
  let config := config ua in
  emit (EvCall updatedDeps recursionLimit) ;;
  logger_debug ("cargo.updateArtifacts(" +:+ packageFileName +:+ ")") ;;
  lockFileName ← findLocalSiblingOrParent packageFileName "Cargo.lock";
  existingLockFileContent ←
    match asTruthy lockFileName with
    | Some lockFileName => readLocalFile lockFileName
    | None => mret None
    end;
  match existingLockFileContent, asTruthy lockFileName with
  | Some existingLockFileContent, Some lockFileName =>
    if negb (isLockFileMaintenance config) && (length updatedDeps =? 0)%nat then
      logger_debug "No more dependencies to update" ;;
      mret (Some [file_addition lockFileName (Some existingLockFileContent)])
    else
      try_catch (attempt ua lockFileName existingLockFileContent) (λ err,
        if String.eqb (message err) TEMPORARY_ERROR then throw err
        else
          newCargoLockContent ← readLocalFile_utf8 lockFileName;
          match recursionLimit, asTruthy newCargoLockContent with
          | S recursionLimit', Some newCargoLockContent =>
            if test_packageIdSpecification (stderr err) then
              let versions := extractLockFileContentVersions newCargoLockContent in
              let newUpdatedDeps := filterUpdatedDeps versions updatedDeps in
              if (length newUpdatedDeps <? length updatedDeps)%nat then
                logger_debug "Dependency already up to date - reattempting recursively" ;;
                updateArtifactsImpl {|
                  packageFileName := packageFileName;
                  updatedDeps := newUpdatedDeps;
                  newPackageFileContent := newPackageFileContent;
                  config := config;
                |} recursionLimit'
              else failed lockFileName err
            else failed lockFileName err
          | _, _ => failed lockFileName err
          end)
  | _, _ =>
    logger_debug "No Cargo.lock found" ;;
    mret None
  end.


End Engine.

(** ** Reading a run *)

(** The three components of a finished run. *)
Definition completion {A W : Type} (r : Completion A * W * list Event) : Completion A :=
  r.1.1.
Definition world {A W : Type} (r : Completion A * W * list Event) : W :=
  r.1.2.
Definition events {A W : Type} (r : Completion A * W * list Event) : list Event :=
  r.2.

(** The command lists handed to [exec], in order. *)
Definition exec_calls (t : list Event) : list (list string) :=
  omap (λ ev, match ev with EvExec cmds _ => Some cmds | _ => None end) t.

(** The manifest writes, in order. *)
Definition write_calls (t : list Event) : list (string * string) :=
  omap (λ ev, match ev with EvWriteLocalFile p c => Some (p, c) | _ => None end) t.

(** The invocations of [updateArtifactsImpl]: upgrades and recursion limit. *)
Definition impl_calls (t : list Event) : list (list Upgrade * nat) :=
  omap (λ ev, match ev with EvCall deps n => Some (deps, n) | _ => None end) t.

(** The recursive retries: every invocation after the first. *)
Definition retries (t : list Event) : nat := pred (length (impl_calls t)).

(** Each invocation after the first was made by the one before it, with a
    positive recursion limit, the limit decremented by one, and strictly fewer
    upgrades, all of them taken in order from the previous ones. *)
Fixpoint narrowing (calls : list (list Upgrade * nat)) : Prop :=
  match calls with
  | (deps1, limit1) :: rest =>
    match rest with
    | (deps2, limit2) :: _ =>
      0 < limit1 ∧ limit2 = limit1 - 1 ∧
      length deps2 < length deps1 ∧ sublist deps2 deps1 ∧
      narrowing rest
    | [] => True
    end
  | [] => True
  end.


(** ** The steps of one invocation *)

Section Steps.

Context {World : Type} `{Collaborators World}.

(** What every invocation emits first (lines 86-87). *)
Definition entry_events (ua : UpdateArtifact) (recursionLimit : nat) : list Event :=
  [EvCall (updatedDeps ua) recursionLimit;
   EvLog Debug ("cargo.updateArtifacts(" +:+ packageFileName ua +:+ ")")].

(** The lock file an invocation works on (lines 91-98): the name
    [findLocalSiblingOrParent] returns, when it is truthy, and the [Buffer]
    [readLocalFile] reads from it, when it is not [null] (an object is truthy,
    also when the file is empty). *)
Definition locate (ua : UpdateArtifact) (w : World) : option (string * Buffer) :=
  match asTruthy (fs_findLocalSiblingOrParent (packageFileName ua) "Cargo.lock" w) with
  | Some lockFileName =>
    match fs_readLocalFile_buffer lockFileName w with
    | Some existingLockFileContent => Some (lockFileName, existingLockFileContent)
    | None => None
    end
  | None => None
  end.

(** The request of the recursive call (lines 178-205, the recursion limit
    apart), when error [err] left the tree as [w]: the lock file is read again,
    the signature is looked for in [err.stderr], and the filtered upgrades must
    be fewer than the requested ones. *)
Definition retry_request (ua : UpdateArtifact) (lockFileName : string) (err : JsError)
    (w : World) : option UpdateArtifact :=
  match asTruthy (fs_readLocalFile lockFileName w) with
  | Some newCargoLockContent =>
    if test_packageIdSpecification (stderr err) then
      let newUpdatedDeps :=
        filterUpdatedDeps (extractLockFileContentVersions newCargoLockContent)
          (updatedDeps ua) in
      if (length newUpdatedDeps <? length (updatedDeps ua))%nat then
        Some {|
          packageFileName := packageFileName ua;
          updatedDeps := newUpdatedDeps;
          newPackageFileContent := newPackageFileContent ua;
          config := config ua;
        |}
      else None
    else None
  | None => None
  end.

(** The request is not answered at line 104: it is a lock file maintenance or
    it names an upgrade, so the invocation goes on to the [try] block. *)
Definition has_work (ua : UpdateArtifact) : Prop :=
  isLockFileMaintenance (config ua) = true ∨ updatedDeps ua ≠ [].

End Steps.

(** ** A concrete working tree *)

Module Demo.

(** A toy lock format, one [name version] entry per [;]-separated field. *)
Fixpoint split_on (sep : ascii) (s : string) : list string :=
  match s with
  | EmptyString => [EmptyString]
  | String c s' =>
    if Ascii.eqb c sep then EmptyString :: split_on sep s'
    else match split_on sep s' with
         | x :: xs => String c x :: xs
         | [] => [String c EmptyString]
         end
  end.

Definition extract (content : string) : option (gmap string (list string)) :=
  Some (foldr (λ entry m,
          match split_on " "%char entry with
          | [name; version] => <[name := version :: default [] (m !! name)]> m
          | _ => m
          end) ∅ (split_on ";"%char content)).

(** The working tree of the examples: a flat map from file name to content,
    and the number of writes and commands the tree has been through.  A
    [Buffer] read from the tree is a new object after each of them: that
    number is its identity.  (Two reads with neither a write nor a command
    between them would get one identity; [updateArtifactsImpl] compares
    only the read of line 96 with the read of line 154, which a write and a
    command separate.) *)
Record Tree := {
  files : gmap string string;
  changes : nat;
}.

(** The collaborators over a [Tree]: [resolver] is what running the commands
    does to the files, [readonly] the files that cannot be written.  The lock
    file is looked for in the root only, and every argument of the examples
    is made of characters [quote] leaves alone. *)
Definition collaborators (resolver : list string -> gmap string string -> Completion unit * gmap string string)
    (readonly : list string) : Collaborators Tree := {|
  TEMPORARY_ERROR := "temporary-error";
  CrateDatasource_id := "crate";
  quote := λ s, s;
  getGitEnvironmentVariables := λ _, [];
  extractLockFileContentVersions := extract;
  fs_findLocalSiblingOrParent := λ _ other w,
    if bool_decide (is_Some (files w !! other)) then Some other else None;
  fs_readLocalFile_buffer := λ name w,
    (λ content, {| ref := changes w; bytes := content |}) <$> files w !! name;
  fs_readLocalFile := λ name w, files w !! name;
  fs_writeLocalFile := λ name content w,
    if bool_decide (name ∈ readonly)
    then (Throw {| message := "EACCES: permission denied"; stderr := None |}, w)
    else (Normal tt, {| files := <[name := content]> (files w); changes := S (changes w) |});
  proc_exec := λ cmds _ w,
    ((resolver cmds (files w)).1,
     {| files := (resolver cmds (files w)).2; changes := S (changes w) |});
|}.

Definition crate (name locked new : string) : Upgrade := {|
  depName := Some name;
  packageName := Some name;
  datasource := Some "crate";
  lockedVersion := Some locked;
  newVersion := Some new;
|}.

Definition foo : Upgrade := crate "foo" "1.0.0" "1.1.0".
Definition bar : Upgrade := crate "bar" "2.0.0" "2.1.0".

Definition request (maintenance : bool) (deps : list Upgrade) : UpdateArtifact := {|
  packageFileName := "Cargo.toml";
  updatedDeps := deps;
  newPackageFileContent := "[dependencies]";
  config := {| isLockFileMaintenance := maintenance; constraints := None |};
|}.

Definition conflict : JsError := {|
  message := "Command failed: cargo update";
  stderr := Some "error: package ID specification `foo@1.0.0` did not match any packages";
|}.

(** A tree with a manifest and a lock file, a tree with a manifest alone,
    and a tree after some writes and commands. *)
Definition tree (lock : string) : Tree := {|
  files := {[ "Cargo.toml" := "[dependencies]"; "Cargo.lock" := lock ]};
  changes := 0;
|}.

Definition manifest_only : Tree := {|
  files := {[ "Cargo.toml" := "[dependencies]" ]};
  changes := 0;
|}.

Definition after (n : nat) (w : Tree) : Tree := {|
  files := files w;
  changes := n;
|}.

(** The [Buffer] a read of the lock file returns. *)
Definition lock_buffer (w : Tree) : Buffer := {|
  ref := changes w;
  bytes := default "" (files w !! "Cargo.lock");
|}.

(** Resolvers: one that succeeds and writes a new lock file, one that leaves
    the lock file as it is, one that fails with the conflict signature after
    writing a lock file, one that fails for another reason, and one that
    fails with the fatal message. *)
Definition resolves (lock : string) : list string -> gmap string string -> Completion unit * gmap string string :=
  λ _ w, (Normal tt, <["Cargo.lock" := lock]> w).
Definition idle : list string -> gmap string string -> Completion unit * gmap string string :=
  λ _ w, (Normal tt, w).
Definition conflicts (lock : string) : list string -> gmap string string -> Completion unit * gmap string string :=
  λ _ w, (Throw conflict, <["Cargo.lock" := lock]> w).
Definition conflicts_idle : list string -> gmap string string -> Completion unit * gmap string string :=
  λ _ w, (Throw conflict, w).
Definition breaks : list string -> gmap string string -> Completion unit * gmap string string :=
  λ _ w, (Throw {| message := "Command failed"; stderr := Some "error: no network" |}, w).
Definition fatal : list string -> gmap string string -> Completion unit * gmap string string :=
  λ _ w, (Throw {| message := "temporary-error"; stderr := Some "error: package ID specification" |}, w).

(** A resolver that always fails with the conflict signature, and each time
    has brought one more of the crates [d1], [d2], ... to version [2.0.0]:
    it appends the next entry to the lock file. *)
Definition entries (content : string) : nat := length (split_on ";"%char content).

Fixpoint digits (fuel n : nat) (acc : string) : string :=
  match fuel with
  | O => acc
  | S fuel' =>
    let acc' := String (ascii_of_nat (48 + n mod 10)) acc in
    if (n / 10 =? 0)%nat then acc' else digits fuel' (n / 10) acc'
  end.

Definition crate_name (n : nat) : string := "d" +:+ digits n n "".

Definition creeping : list string -> gmap string string -> Completion unit * gmap string string :=
  λ _ w,
    let lock := default "" (w !! "Cargo.lock") in
    (Throw conflict,
     <["Cargo.lock" := lock +:+ ";" +:+ crate_name (entries lock) +:+ " 2.0.0"]> w).

Definition crates (n : nat) : list Upgrade :=
  (λ i, crate (crate_name i) "1.0.0" "2.0.0") <$> seq 1 n.

(** [updateArtifactsImpl] and the body of its [try] block over these
    collaborators. *)
Definition run (resolver : list string -> gmap string string -> Completion unit * gmap string string)
    (readonly : list string) (ua : UpdateArtifact) (recursionLimit : nat)
    (w : Tree) :=
  @updateArtifactsImpl _ (collaborators resolver readonly) ua recursionLimit w.

Definition try_block (resolver : list string -> gmap string string -> Completion unit * gmap string string)
    (readonly : list string) (ua : UpdateArtifact) (w : Tree) :=
  @attempt _ (collaborators resolver readonly) ua "Cargo.lock" (lock_buffer w) w.

End Demo.

(** ** Further readings of a run *)

(** The options handed to [exec], in order. *)
Definition exec_opts (t : list Event) : list ExecOptions :=
  omap (λ ev, match ev with EvExec _ opts => Some opts | _ => None end) t.

(** The collaborators of [Demo] with a lock file extractor that gives up. *)
Definition unparsed_collaborators
    (resolver : list string -> gmap string string -> Completion unit * gmap string string)
    : Collaborators Demo.Tree := {|
  TEMPORARY_ERROR := "temporary-error";
  CrateDatasource_id := "crate";
  quote := λ s, s;
  getGitEnvironmentVariables := λ _, [];
  extractLockFileContentVersions := λ _, None;
  fs_findLocalSiblingOrParent := fs_findLocalSiblingOrParent (Collaborators := Demo.collaborators resolver []);
  fs_readLocalFile_buffer := fs_readLocalFile_buffer (Collaborators := Demo.collaborators resolver []);
  fs_readLocalFile := fs_readLocalFile (Collaborators := Demo.collaborators resolver []);
  fs_writeLocalFile := fs_writeLocalFile (Collaborators := Demo.collaborators resolver []);
  proc_exec := proc_exec (Collaborators := Demo.collaborators resolver []);
|}.

(** ** GitLab helpers: the second part of [artifacts.ts] (lines 220-272) *)

Module Gitlab.

(** The element type [{ id: number }] of the answer [getUserID] reads. *)
Module UserInfo.
Record t := { id : Z }.
End UserInfo.

(** [GitLabUser] (./types.ts), the fields the helpers read. *)
Module GitLabUser.
Record t := { id : Z; username : string }.
End GitLabUser.

(** [GitlabUserStatus] (./types.ts), the field [isUserBusy] reads. *)
Record GitlabUserStatus := { availability : string }.

(** [gitlabApi.getJsonUnchecked<T>(url)] followed by [.body], at the three
    types the file asks for: the answer is not validated, it has the type
    asked for, and a failed request throws.  [encodeURIComponent] is the
    JavaScript built-in. *)
Class GitlabHttp (World : Type) := {
  encodeURIComponent : string -> string;
  getJsonUnchecked_userInfo : string -> World -> Completion (list UserInfo.t) * World;
  getJsonUnchecked_members : string -> World -> Completion (list GitLabUser.t) * World;
  getJsonUnchecked_status : string -> World -> Completion GitlabUserStatus * World;
}.

Section Helpers.

Context {World : Type} `{GitlabHttp World}.

Definition request {A : Type} (get : string -> World -> Completion A * World) (url : string)
    : M A :=
  λ w, let '(r, w1) := get url w in (r, w1, []).

(** [getUserID] (lines 227-241): [is.emptyArray(userInfo)] is the first case
    of the match, [userInfo[0].id] the second. *)
Definition getUserID (username : string) : M Z :=
  userInfo ← request getJsonUnchecked_userInfo ("users?username=" +:+ username);
  match userInfo with
  | [] =>
    throw {|
      message := "User ID for the username: " +:+ username +:+ " could not be found.";
      stderr := None;
    |}
  | first :: _ => mret (UserInfo.id first)
  end.

(** [getMembers] (lines 243-250) *)
Definition getMembers (group : string) : M (list GitLabUser.t) :=
  let groupEncoded := encodeURIComponent group in
  request getJsonUnchecked_members ("groups/" +:+ groupEncoded +:+ "/members").

(** [getMemberUserIDs] (lines 252-255) *)
Definition getMemberUserIDs (group : string) : M (list Z) :=
  members ← getMembers group;
  mret (map GitLabUser.id members).

(** [getMemberUsernames] (lines 257-260) *)
Definition getMemberUsernames (group : string) : M (list string) :=
  members ← getMembers group;
  mret (map GitLabUser.username members).

(** [isUserBusy] (lines 262-272) *)
Definition isUserBusy (user : string) : M bool :=
  try_catch
    (let url := "/users/" +:+ user +:+ "/status" in
     userStatus ← request getJsonUnchecked_status url;
     mret (bool_decide (availability userStatus = "busy")))
    (λ err,
      logger_warn "Failed to get user status" ;;
      mret false).

End Helpers.

(** A GitLab instance for the examples: the users and the members it lists,
    and whether the status endpoint answers. *)
Definition server (users : list UserInfo.t) (members : list GitLabUser.t)
    (status : option string) : GitlabHttp unit := {|
  encodeURIComponent := λ s, s;
  getJsonUnchecked_userInfo := λ _ w, (Normal users, w);
  getJsonUnchecked_members := λ _ w, (Normal members, w);
  getJsonUnchecked_status := λ _ w,
    match status with
    | Some a => (Normal {| availability := a |}, w)
    | None => (Throw {| message := "Response code 404 (Not Found)"; stderr := None |}, w)
    end;
|}.

End Gitlab.

(** ** Maven wrapper version extraction: [maven-wrapper/extract.ts] *)

Module MavenWrapper.

(** [Version] (./types.ts): the two named groups of a match, each [undefined]
    when the match has no such group. *)
Module Version.
Record t := { replaceString : option string; version : option string }.
End Version.

(** [MavenVersionExtract] (./types.ts) *)
Record MavenVersionExtract := {
  maven : option Version.t;
  wrapper : option Version.t;
}.

(** [PackageDependency] (manager/types.ts), the fields the extraction sets. *)
Module PackageDependency.
Record t := {
  depName : string;
  packageName : string;
  currentValue : option string;
  replaceString : option string;
  datasource : string;
  versioning : string;
}.
End PackageDependency.

(** [PackageFileContent] (manager/types.ts) *)
Record PackageFileContent := { deps : list PackageDependency.t }.

(** The regular expressions of the run time and the constants of other
    modules.  [regEx] compiles a pattern; [str_match] is the truthiness of
    [line.match(regex)]; [regex_exec] is [regex.exec(line)]: [null], or a
    match whose [groups] are [undefined] or map a group name to what it
    captured; [str_split] is [content.split(regex)]. *)
Class RegexEngine := {
  RegExp : Type;
  regEx : string -> RegExp;
  newlineRegex : RegExp;
  str_match : string -> RegExp -> bool;
  regex_exec : RegExp -> string -> option (option (gmap string string));
  str_split : string -> RegExp -> list string;
  (** [MavenDatasource.id] *)
  MavenDatasource_id : string;
  (** [id] of versioning/maven *)
  versioning_id : string;
}.

Section Extract.

Context `{RegexEngine}.

(** Lines 10-21: the three patterns, as the strings the source writes. *)
Definition DISTRIBUTION_URL_REGEX : RegExp :=
  regEx "^(?:distributionUrl\s*=\s*)(?<replaceString>\S*-(?<version>\d+\.\d+(?:\.\d+)?(?:-\w+)*)-(?<type>bin|all)\.zip)\s*$".

Definition WRAPPER_URL_REGEX : RegExp :=
  regEx "^(?:wrapperUrl\s*=\s*)(?<replaceString>\S*-(?<version>\d+\.\d+(?:\.\d+)?(?:-\w+)*)(?:.jar))".

Definition WRAPPER_VERSION_REGEX : RegExp :=
  regEx "^(?:wrapperVersion\s*=\s*)(?<replaceString>(?<version>\d+\.\d+(?:\.\d+)?))".

(** The inner loop of [extractLineInfo] (lines 34-44), for one line: the
    first pattern that matches the line and whose match has groups. *)
Fixpoint extractLineInfo_line (line : string) (regexs : list RegExp) : option Version.t :=
  match regexs with
  | [] => None
  | regex :: regexs' =>
    if str_match line regex then
      match regex_exec regex line with
      | Some (Some groups) =>
        Some {|
          Version.replaceString := groups !! "replaceString";
          Version.version := groups !! "version";
        |}
      | _ => extractLineInfo_line line regexs'
      end
    else extractLineInfo_line line regexs'
  end.

(** [extractLineInfo] (lines 32-47) *)
Fixpoint extractLineInfo (lines : list string) (regexs : list RegExp) : option Version.t :=
  match lines with
  | [] => None
  | line :: lines' =>
    match extractLineInfo_line line regexs with
    | Some info => Some info
    | None => extractLineInfo lines' regexs
    end
  end.

(** [extractVersions] (lines 23-30): [?? undefined] turns [null] into
    [undefined], both [None] here. *)
Definition extractVersions (fileContent : string) : MavenVersionExtract :=
  let lines := coerceArray (Some (str_split fileContent newlineRegex)) in
  let maven := extractLineInfo lines [DISTRIBUTION_URL_REGEX] in
  let wrapper := extractLineInfo lines [WRAPPER_URL_REGEX; WRAPPER_VERSION_REGEX] in
  {| maven := maven; wrapper := wrapper |}.

(** [extractPackageFile] (lines 49-80); [logger.trace] writes to the log
    only. *)
Definition extractPackageFile (fileContent : string) : option PackageFileContent :=
  let extractResult := extractVersions fileContent in
  let deps := [] in
  let deps :=
    if bool_decide (is_Some (asTruthy (maven extractResult ≫= Version.version))) then
      deps ++ [{|
        PackageDependency.depName := "maven";
        PackageDependency.packageName := "org.apache.maven:apache-maven";
        PackageDependency.currentValue := maven extractResult ≫= Version.version;
        PackageDependency.replaceString := maven extractResult ≫= Version.replaceString;
        PackageDependency.datasource := MavenDatasource_id;
        PackageDependency.versioning := versioning_id;
      |}]
    else deps in
  let deps :=
    if bool_decide (is_Some (asTruthy (wrapper extractResult ≫= Version.version))) then
      deps ++ [{|
        PackageDependency.depName := "maven-wrapper";
        PackageDependency.packageName := "org.apache.maven.wrapper:maven-wrapper";
        PackageDependency.currentValue := wrapper extractResult ≫= Version.version;
        PackageDependency.replaceString := wrapper extractResult ≫= Version.replaceString;
        PackageDependency.datasource := MavenDatasource_id;
        PackageDependency.versioning := versioning_id;
      |}]
    else deps in
  if (length deps =? 0)%nat then None else Some {| deps := deps |}.

End Extract.

(** A toy engine for the examples.  A pattern is kept as its text; it matches
    a line that starts with the property name the pattern starts with,
    followed by [=], and captures the rest of the line as both groups.
    Lines are separated by [;]. *)
Definition key_of (pattern : string) : string :=
  match String.index 0 "\" pattern with
  | Some n => String.substring 4 (n - 4) pattern +:+ "="
  | None => pattern
  end.

Definition toy_exec (pattern line : string) : option (option (gmap string string)) :=
  let key := key_of pattern in
  if String.prefix key line then
    let rest := String.substring (String.length key) (String.length line) line in
    Some (Some {[ "replaceString" := rest; "version" := rest ]})
  else None.

Definition toy_engine : RegexEngine := {|
  RegExp := string;
  regEx := λ pattern, pattern;
  newlineRegex := ";";
  str_match := λ line pattern, bool_decide (is_Some (toy_exec pattern line));
  regex_exec := toy_exec;
  str_split := λ content _, Demo.split_on ";"%char content;
  MavenDatasource_id := "maven";
  versioning_id := "maven";
|}.

End MavenWrapper.

(** ** Properties of one invocation *)

Section Properties.

Context {World : Type} `{Collaborators World}.

Implicit Types (ua : UpdateArtifact) (w : World) (e : JsError).

(** Running the monad's operations. *)
Ltac run_M :=
  repeat progress
    (unfold mbind, M_bind, mret, M_ret, emit, logger_debug, logger_warn, emit,
       findLocalSiblingOrParent, readLocalFile, readLocalFile_utf8, try_catch, throw,
       failed in *);
  cbn -[attempt String.append String.eqb updateArtifactsImpl invokeResolver] in *.

(** One invocation, case by case. *)
Lemma updateArtifactsImpl_unfold ua recursionLimit w :
  updateArtifactsImpl ua recursionLimit w =
  match locate ua w with
  | None =>
    (Normal None, w, entry_events ua recursionLimit ++ [EvLog Debug "No Cargo.lock found"])
  | Some (l, c) =>
    if negb (isLockFileMaintenance (config ua)) && (length (updatedDeps ua) =? 0)%nat then
      (Normal (Some [file_addition l (Some c)]), w,
       entry_events ua recursionLimit ++ [EvLog Debug "No more dependencies to update"])
    else
      match attempt ua l c w with
      | (Normal r, w1, t1) => (Normal r, w1, entry_events ua recursionLimit ++ t1)
      | (Throw e, w1, t1) =>
        if String.eqb (message e) TEMPORARY_ERROR then
          (Throw e, w1, entry_events ua recursionLimit ++ t1)
        else
          match recursionLimit, retry_request ua l e w1 with
          | S n, Some ua' =>
            let '(r, w2, t2) := updateArtifactsImpl ua' n w1 in
            (r, w2,
             entry_events ua recursionLimit ++ t1 ++
             EvLog Debug "Dependency already up to date - reattempting recursively" :: t2)
          | _, _ =>
            (Normal (Some [artifactError l (message e)]), w1,
             entry_events ua recursionLimit ++ t1 ++
             [EvLog Debug "Failed to update Cargo lock file"])
          end
      end
  end.
Proof.
  unfold locate, retry_request, entry_events.
  destruct recursionLimit as [|n]; cbn -[attempt String.append String.eqb].
  all: repeat first
    [ reflexivity
    | progress run_M
    | rewrite app_nil_r
    | case_match; simplify_eq ].
Qed.

(** The loop of [cargoUpdatePrecise] appends one command per dependency, in
    the order of the dependencies. *)
Lemma fold_left_push {A : Type} (f : A -> string) (l : list A) (init : list string) :
  fold_left (λ cmds x, cmds ++ [f x]) l init = init ++ map f l.
Proof.
  revert init. induction l as [|x l IH]; intros init; simpl.
  - by rewrite app_nil_r.
  - rewrite IH, <- app_assoc. reflexivity.
Qed.

Lemma find_None_Forall {A : Type} (p : A -> bool) (l : list A) :
  Forall (λ x, p x = false) l → find p l = None.
Proof.
  induction 1 as [|x l Hx _ IH]; simpl; [done|]. by rewrite Hx.
Qed.

Lemma find_Some_Exists {A : Type} (p : A -> bool) (l : list A) :
  Exists (λ x, p x = true) l → is_Some (find p l).
Proof.
  induction 1 as [x l Hx|x l _ IH]; simpl.
  - rewrite Hx. by eexists.
  - destruct (p x); [by eexists|done].
Qed.

Lemma exec_run cmds opts w :
  exec cmds opts w = ((proc_exec cmds opts w).1, (proc_exec cmds opts w).2, [EvExec cmds opts]).
Proof. unfold exec. by destruct (proc_exec cmds opts w). Qed.

(** [invokeResolver] is one call of [exec], after at most a warning; it ends
    as [exec] does. *)
Lemma invokeResolver_run ua w :
  ∃ warn cmds opts,
    Forall (λ ev, ∃ m, ev = EvLog Warn m) warn ∧
    invokeResolver ua w =
      ((proc_exec cmds opts w).1, (proc_exec cmds opts w).2, warn ++ [EvExec cmds opts]).
Proof.
  unfold invokeResolver.
  destruct (isLockFileMaintenance (config ua)).
  { exists []. do 2 eexists. split; [constructor|].
    unfold cargoUpdate. rewrite exec_run. reflexivity. }
  destruct (bool_decide _ || bool_decide _).
  - destruct (find _ (updatedDeps ua)).
    + exists [EvLog Warn "Missing locked version for dependency"]. do 2 eexists.
      split; [repeat constructor; by eexists|].
      unfold cargoUpdate. run_M. rewrite exec_run. reflexivity.
    + exists []. do 2 eexists. split; [constructor|].
      unfold cargoUpdate. run_M. rewrite exec_run. reflexivity.
  - exists []. do 2 eexists. split; [constructor|].
    unfold cargoUpdatePrecise. rewrite exec_run. reflexivity.
Qed.

(** One attempt, case by case. *)
Lemma attempt_unfold ua l c w :
  attempt ua l c w =
  let written := EvWriteLocalFile (packageFileName ua) (newPackageFileContent ua) in
  let updating := EvLog Debug ("Updating " +:+ l) in
  match fs_writeLocalFile (packageFileName ua) (newPackageFileContent ua) w with
  | (Throw e, w1) => (Throw e, w1, [written])
  | (Normal _, w1) =>
    match invokeResolver ua w1 with
    | (Throw e, w2, t) => (Throw e, w2, written :: updating :: t)
    | (Normal _, w2, t) =>
      if strictly_equal c (fs_readLocalFile_buffer l w2) then
        (Normal None, w2,
         written :: updating :: t ++
         [EvLog Debug "Returning updated Cargo.lock"; EvLog Debug "Cargo.lock is unchanged"])
      else
        (Normal (Some [file_addition l (fs_readLocalFile_buffer l w2)]), w2,
         written :: updating :: t ++ [EvLog Debug "Returning updated Cargo.lock"])
    end
  end.
Proof.
  unfold attempt, writeLocalFile. run_M.
  destruct (fs_writeLocalFile _ _ w) as [[[]|e] w1]; [|reflexivity].
  destruct (invokeResolver ua w1) as [[[[]|e] w2] t]; [|reflexivity].
  destruct (strictly_equal _ _); reflexivity.
Qed.

Lemma impl_calls_app t1 t2 : impl_calls (t1 ++ t2) = impl_calls t1 ++ impl_calls t2.
Proof. apply omap_app. Qed.

Lemma exec_calls_app t1 t2 : exec_calls (t1 ++ t2) = exec_calls t1 ++ exec_calls t2.
Proof. apply omap_app. Qed.

Lemma write_calls_app t1 t2 : write_calls (t1 ++ t2) = write_calls t1 ++ write_calls t2.
Proof. apply omap_app. Qed.

Lemma warn_calls warn :
  Forall (λ ev, ∃ m, ev = EvLog Warn m) warn → impl_calls warn = [] ∧ exec_calls warn = [].
Proof.
  induction 1 as [|ev warn [m ->] _ [IH1 IH2]]; [done|].
  split; [exact IH1|exact IH2].
Qed.

(** An attempt never re-enters [updateArtifactsImpl], writes the manifest
    once and calls [exec] at most once. *)
Lemma attempt_calls ua l c w :
  impl_calls (events (attempt ua l c w)) = [] ∧
  (length (exec_calls (events (attempt ua l c w))) ≤ 1)%nat.
Proof.
  rewrite attempt_unfold. cbn zeta.
  destruct (fs_writeLocalFile _ _ w) as [[[]|e] w1]; [|by auto].
  destruct (invokeResolver_run ua w1) as (warn & cmds & opts & Hwarn & ->).
  apply warn_calls in Hwarn as [Hi He].
  destruct (proc_exec cmds opts w1) as [[[]|e] w2]; cbn [fst snd];
    [destruct (strictly_equal _ _)|]; unfold events; cbn [fst snd];
    rewrite ?app_comm_cons, !impl_calls_app, !exec_calls_app;
    change (impl_calls (_ :: _ :: warn)) with (impl_calls warn);
    change (exec_calls (_ :: _ :: warn)) with (exec_calls warn);
    rewrite Hi, He; simpl; auto.
Qed.


Lemma has_work_test ua :
  has_work ua →
  negb (isLockFileMaintenance (config ua)) && (length (updatedDeps ua) =? 0)%nat = false.
Proof.
  intros [->|Hdeps]; [done|].
  destruct (updatedDeps ua); [done|]. by rewrite andb_false_r.
Qed.

(** Every invocation records itself first. *)
Lemma impl_calls_head ua recursionLimit w :
  ∃ rest,
    impl_calls (events (updateArtifactsImpl ua recursionLimit w)) =
    (updatedDeps ua, recursionLimit) :: rest.
Proof.
  rewrite updateArtifactsImpl_unfold.
  repeat case_match; unfold events; cbn [fst snd]; eexists; reflexivity.
Qed.

(** C7: when no lock file is found for the manifest, or the one found cannot
    be read ([locate] is [None]: the name is [null] or empty, or the read
    returns [null]), the invocation returns [null], leaves the working tree as
    it was, writes nothing and runs no command.  A lock file that is read,
    also an empty one, is not such a case. *)
Theorem no_lock_file_short_circuit ua recursionLimit w :
  locate ua w = None →
  completion (updateArtifactsImpl ua recursionLimit w) = Normal None ∧
  world (updateArtifactsImpl ua recursionLimit w) = w ∧
  write_calls (events (updateArtifactsImpl ua recursionLimit w)) = [] ∧
  exec_calls (events (updateArtifactsImpl ua recursionLimit w)) = [].
Proof.
  intros Hlocate. rewrite updateArtifactsImpl_unfold, Hlocate. done.
Qed.

(** The branch of lines 155-158: after a successful resolver run the
    invocation returns [null] when the object read afterwards is the very
    object read before.  The content of the two plays no part. *)
Lemma identical_object_is_no_change ua recursionLimit w l c w1 w2 t :
  locate ua w = Some (l, c) →
  has_work ua →
  fs_writeLocalFile (packageFileName ua) (newPackageFileContent ua) w = (Normal tt, w1) →
  invokeResolver ua w1 = (Normal tt, w2, t) →
  strictly_equal c (fs_readLocalFile_buffer l w2) = true →
  completion (updateArtifactsImpl ua recursionLimit w) = Normal None.
Proof.
  intros Hlocate Hwork Hwrite Hresolve Hread.
  rewrite updateArtifactsImpl_unfold, Hlocate, (has_work_test _ Hwork).
  by rewrite attempt_unfold, Hwrite, Hresolve, Hread.
Qed.

(** C6, what the code does: the lock file is read at line 96 and again at
    line 154, both times without an encoding, so each read returns a
    [Buffer] of its own, and line 155 compares the two objects.  When the
    manifest is written, the resolver succeeds and the second read returns
    another object with the very bytes of the first, the invocation does not
    return [null]: it returns a file addition for the lock file with the
    unchanged bytes. *)
Theorem byte_identical_lock_file_is_addition ua recursionLimit w l c w1 w2 t c' :
  locate ua w = Some (l, c) →
  has_work ua →
  fs_writeLocalFile (packageFileName ua) (newPackageFileContent ua) w = (Normal tt, w1) →
  invokeResolver ua w1 = (Normal tt, w2, t) →
  fs_readLocalFile_buffer l w2 = Some c' →
  bytes c' = bytes c →
  ref c' ≠ ref c →
  completion (updateArtifactsImpl ua recursionLimit w) =
    Normal (Some [file_addition l (Some c')]) ∧
  completion (updateArtifactsImpl ua recursionLimit w) ≠ Normal None.
Proof.
  intros Hlocate Hwork Hwrite Hresolve Hread _ Hfresh.
  assert (strictly_equal c (fs_readLocalFile_buffer l w2) = false) as Hcompare.
  { rewrite Hread. cbn. apply Nat.eqb_neq. congruence. }
  assert (completion (updateArtifactsImpl ua recursionLimit w) =
          Normal (Some [file_addition l (Some c')])) as ->.
  { rewrite updateArtifactsImpl_unfold, Hlocate, (has_work_test _ Hwork).
    by rewrite attempt_unfold, Hwrite, Hresolve, Hcompare, Hread. }
  done.
Qed.

(** C4: a failure of the attempt whose message is [TEMPORARY_ERROR] is thrown
    again as it is, whatever the recursion limit and whatever its [stderr]:
    the invocation ends there, without a retry and without a result. *)
Theorem fatal_passthrough ua recursionLimit w l c e w1 t1 :
  locate ua w = Some (l, c) →
  has_work ua →
  attempt ua l c w = (Throw e, w1, t1) →
  message e = TEMPORARY_ERROR →
  updateArtifactsImpl ua recursionLimit w = (Throw e, w1, entry_events ua recursionLimit ++ t1) ∧
  retries (events (updateArtifactsImpl ua recursionLimit w)) = 0.
Proof.
  intros Hlocate Hwork Hattempt Hmsg.
  assert (updateArtifactsImpl ua recursionLimit w
          = (Throw e, w1, entry_events ua recursionLimit ++ t1)) as ->.
  { rewrite updateArtifactsImpl_unfold, Hlocate, (has_work_test _ Hwork), Hattempt.
    by rewrite Hmsg, String.eqb_refl. }
  split; [done|].
  destruct (attempt_calls ua l c w) as [Hcalls _]. rewrite Hattempt in Hcalls.
  unfold retries, events in *. cbn [fst snd] in *.
  by rewrite impl_calls_app, Hcalls.
Qed.

(** C3: after a failure that is not fatal, when the lock file cannot be read
    again (absent or empty) or the failure's [stderr] does not carry the
    "package ID specification" signature, no recovery is attempted: the
    invocation returns, as a value, the artifact error with the lock file name
    and the failure's message. *)
Theorem terminal_error_without_recovery ua recursionLimit w l c e w1 t1 :
  locate ua w = Some (l, c) →
  has_work ua →
  attempt ua l c w = (Throw e, w1, t1) →
  message e ≠ TEMPORARY_ERROR →
  asTruthy (fs_readLocalFile l w1) = None ∨ test_packageIdSpecification (stderr e) = false →
  updateArtifactsImpl ua recursionLimit w =
    (Normal (Some [artifactError l (message e)]), w1,
     entry_events ua recursionLimit ++ t1 ++ [EvLog Debug "Failed to update Cargo lock file"]).
Proof.
  intros Hlocate Hwork Hattempt Hmsg Hstop.
  rewrite updateArtifactsImpl_unfold, Hlocate, (has_work_test _ Hwork), Hattempt.
  apply String.eqb_neq in Hmsg. rewrite Hmsg.
  assert (retry_request ua l e w1 = None) as ->.
  { unfold retry_request. destruct Hstop as [->| ->]; [done|]. by case_match. }
  by destruct recursionLimit.
Qed.

(** C5: the commands [invokeResolver] hands to [exec], in its one call.  For a
    lock file maintenance they are the single update command, without a
    pinned package.  Otherwise, when every upgrade comes from the crate
    datasource and has a locked version, they are the update of the workspace
    followed by one [--precise] command per upgrade, in the order of the
    upgrades; and when some upgrade comes from another datasource or has no
    locked version, they are the update of the workspace alone. *)
Theorem strategy_selection ua w :
  let update :=
    "cargo update --config net.git-fetch-with-cli=true --manifest-path " +:+
    quote (packageFileName ua) in
  let pin dep :=
    "cargo update --config net.git-fetch-with-cli=true --manifest-path " +:+
    quote (packageFileName ua) +:+
    " --package " +:+
    quote (js_String (packageName dep) +:+ "@" +:+ js_String (lockedVersion dep)) +:+
    " --precise " +:+ quote (js_String (newVersion dep)) in
  let plan := exec_calls (events (invokeResolver ua w)) in
  (isLockFileMaintenance (config ua) = true → plan = [[update]]) ∧
  (isLockFileMaintenance (config ua) = false →
   Forall (λ dep, datasource dep = Some CrateDatasource_id ∧
                  is_Some (asTruthy (lockedVersion dep))) (updatedDeps ua) →
   plan = [(update +:+ " --workspace") :: map pin (updatedDeps ua)]) ∧
  (isLockFileMaintenance (config ua) = false →
   Exists (λ dep, datasource dep ≠ Some CrateDatasource_id ∨
                  asTruthy (lockedVersion dep) = None) (updatedDeps ua) →
   plan = [[update +:+ " --workspace"]]).
Proof.
  intros update pin plan. subst plan. unfold invokeResolver.
  split; [|split].
  - intros ->. unfold cargoUpdate. by rewrite exec_run.
  - intros -> Hall.
    rewrite (find_None_Forall _ (updatedDeps ua)), (find_None_Forall _ (updatedDeps ua)).
    + rewrite !bool_decide_eq_false_2 by (intros [? [=]]). cbn [orb].
      unfold cargoUpdatePrecise. rewrite exec_run, fold_left_push. reflexivity.
    + eapply Forall_impl; [exact Hall|]. intros dep [_ Hlocked]; cbn beta.
      by rewrite bool_decide_eq_true_2.
    + eapply Forall_impl; [exact Hall|]. intros dep [Hcrate _]; cbn beta.
      by rewrite bool_decide_eq_true_2.
  - intros -> Hsome.
    assert (bool_decide (is_Some (find (λ dep,
              negb (bool_decide (datasource dep = Some CrateDatasource_id)))
              (updatedDeps ua))) ||
            bool_decide (is_Some (find (λ dep,
              negb (bool_decide (is_Some (asTruthy (lockedVersion dep)))) &&
              bool_decide (datasource dep = Some CrateDatasource_id))
              (updatedDeps ua))) = true) as ->.
    { apply orb_true_iff.
      destruct (decide (Exists (λ dep, datasource dep ≠ Some CrateDatasource_id)
                          (updatedDeps ua))) as [Hother|Hcrates].
      - left. apply bool_decide_eq_true_2, find_Some_Exists.
        eapply Exists_impl; [exact Hother|]. intros dep Hdep; cbn beta.
        by rewrite bool_decide_eq_false_2.
      - right. apply bool_decide_eq_true_2, find_Some_Exists.
        apply Exists_exists in Hsome as (dep & Hin & Hdep).
        apply Exists_exists. exists dep. split; [done|].
        destruct (decide (datasource dep = Some CrateDatasource_id)) as [Hcrate|Hother].
        + destruct Hdep as [?|Hlocked]; [done|].
          rewrite Hlocked, (bool_decide_eq_true_2 _ Hcrate), andb_true_r.
          rewrite bool_decide_eq_false_2; [done|]. by intros [? [=]].
        + exfalso. apply Hcrates, Exists_exists. by exists dep. }
    destruct (find _ (updatedDeps ua)); unfold cargoUpdate; run_M; by rewrite exec_run.
Qed.

(** C10: the filter of the recovery step keeps the upgrades in their order and
    drops exactly those whose [newVersion] is among the versions extracted for
    their [packageName].  In particular an upgrade whose package has no entry
    in the extracted versions is kept. *)
Theorem filter_keeps_unlocked (versions : option (gmap string (list string)))
    (deps : list Upgrade) (dep : Upgrade) :
  sublist (filterUpdatedDeps versions deps) deps ∧
  (dep ∈ filterUpdatedDeps versions deps ↔
   dep ∈ deps ∧
   ¬ ∃ m name locked v,
       versions = Some m ∧ packageName dep = Some name ∧ m !! name = Some locked ∧
       newVersion dep = Some v ∧ v ∈ locked) ∧
  (dep ∈ deps → versions_get versions (packageName dep) = None →
   dep ∈ filterUpdatedDeps versions deps).
Proof.
  assert (∀ locked v, existsb (String.eqb v) locked = true ↔ v ∈ locked) as Hincl.
  { intros locked v. rewrite existsb_exists. split.
    - intros (x & Hin & ->%String.eqb_eq). by apply list_elem_of_In.
    - intros Hin. exists v. split; [by apply list_elem_of_In|apply String.eqb_refl]. }
  unfold filterUpdatedDeps. split; [apply sublist_filter|]. split.
  - rewrite list_elem_of_filter, negb_true_iff.
    split.
    + intros [Hkeep Hin]. split; [done|].
      intros (m & name & locked & v & -> & Hname & Hm & Hv & Hlocked).
      rewrite Hname, Hv in Hkeep. cbn in Hkeep. rewrite Hm in Hkeep. cbn in Hkeep.
      apply Hincl in Hlocked. congruence.
    + intros [Hin Hnot]. split; [|done].
      apply not_true_is_false. intros Hdrop. apply Hnot. clear Hnot.
      unfold includes, versions_get, coerceArray in Hdrop.
      destruct (newVersion dep) as [v|] eqn:Hv; [|done].
      destruct versions as [m|]; [|done].
      destruct (packageName dep) as [name|] eqn:Hname; [|done].
      destruct (m !! name) as [locked|] eqn:Hm; [|done].
      exists m, name, locked, v. repeat split; try done. by apply Hincl.
  - intros Hin Hnone. apply list_elem_of_filter. split; [|done].
    rewrite Hnone. by destruct (newVersion dep).
Qed.

Lemma impl_calls_entry ua recursionLimit t :
  impl_calls (entry_events ua recursionLimit ++ t) =
  (updatedDeps ua, recursionLimit) :: impl_calls t.
Proof. reflexivity. Qed.

Lemma exec_calls_entry ua recursionLimit t :
  exec_calls (entry_events ua recursionLimit ++ t) = exec_calls t.
Proof. reflexivity. Qed.

(** What a retry is made with. *)
Lemma retry_request_Some ua l e w ua' :
  retry_request ua l e w = Some ua' →
  ∃ content,
    asTruthy (fs_readLocalFile l w) = Some content ∧
    test_packageIdSpecification (stderr e) = true ∧
    ua' = {|
      packageFileName := packageFileName ua;
      updatedDeps :=
        filterUpdatedDeps (extractLockFileContentVersions content) (updatedDeps ua);
      newPackageFileContent := newPackageFileContent ua;
      config := config ua;
    |} ∧
    length (updatedDeps ua') < length (updatedDeps ua).
Proof.
  unfold retry_request. intros Hretry.
  destruct (asTruthy (fs_readLocalFile l w)) as [content|]; [|done].
  destruct (test_packageIdSpecification (stderr e)); [|done].
  destruct (_ <? _)%nat eqn:Hlt; [|done].
  injection Hretry as <-. exists content. repeat split; try done.
  by apply Nat.ltb_lt in Hlt.
Qed.

Lemma retry_request_None ua l e w content :
  asTruthy (fs_readLocalFile l w) = Some content →
  (length (updatedDeps ua) ≤
    length (filterUpdatedDeps (extractLockFileContentVersions content) (updatedDeps ua)))%nat →
  retry_request ua l e w = None.
Proof.
  unfold retry_request. intros -> Hlen.
  destruct (test_packageIdSpecification (stderr e)); [|done].
  apply Nat.ltb_ge in Hlen. by rewrite Hlen.
Qed.

(** The chain of invocations of one call narrows at every step. *)
Lemma narrowing_calls recursionLimit ua w :
  narrowing (impl_calls (events (updateArtifactsImpl ua recursionLimit w))).
Proof.
  revert ua w. induction recursionLimit as [|n IH]; intros ua w;
    rewrite updateArtifactsImpl_unfold;
    (destruct (locate ua w) as [[l c]|]; [|done]);
    (destruct (negb _ && _); [done|]);
    pose proof (attempt_calls ua l c w) as [Hcalls _];
    destruct (attempt ua l c w) as [[[r|e] w1] t1];
    unfold events in *; cbn [fst snd] in *; rewrite ?impl_calls_entry, ?Hcalls; try done.
  - destruct (String.eqb _ _); cbn [fst snd];
      rewrite impl_calls_entry, ?impl_calls_app, Hcalls; done.
  - destruct (String.eqb _ _); cbn [fst snd];
      [by rewrite impl_calls_entry, Hcalls|].
    destruct (retry_request ua l e w1) as [ua'|] eqn:Hretry;
      [|cbn [fst snd]; by rewrite impl_calls_entry, impl_calls_app, Hcalls].
    apply retry_request_Some in Hretry as (content & _ & _ & Hua' & Hlen).
    specialize (IH ua' w1). destruct (impl_calls_head ua' n w1) as [rest Hrest].
    destruct (updateArtifactsImpl ua' n w1) as [[r w2] t2]. unfold events in *; cbn [fst snd] in *.
    rewrite impl_calls_entry, impl_calls_app, Hcalls.
    change (impl_calls (_ :: t2)) with (impl_calls t2). rewrite Hrest in *.
    cbn [app narrowing]. repeat split; [lia|lia|done| |done].
    rewrite Hua'. cbn [updatedDeps]. apply sublist_filter.
Qed.

(** C2: in every call, each recursive invocation was made under a positive
    recursion limit, with that limit decremented by one and with strictly
    fewer upgrades than the invocation before it, all of them among the
    previous ones ([narrowing]).  And after a failure that is not fatal, when
    the lock file read again leaves the filtered upgrades as many as the
    requested ones, the invocation does not retry: it returns the artifact
    error. *)
Theorem recovery_narrows ua recursionLimit w :
  narrowing (impl_calls (events (updateArtifactsImpl ua recursionLimit w))) ∧
  ∀ l c e w1 t1 content,
    locate ua w = Some (l, c) →
    has_work ua →
    attempt ua l c w = (Throw e, w1, t1) →
    message e ≠ TEMPORARY_ERROR →
    asTruthy (fs_readLocalFile l w1) = Some content →
    (length (updatedDeps ua) ≤
      length (filterUpdatedDeps (extractLockFileContentVersions content) (updatedDeps ua)))%nat →
    updateArtifactsImpl ua recursionLimit w =
      (Normal (Some [artifactError l (message e)]), w1,
       entry_events ua recursionLimit ++ t1 ++ [EvLog Debug "Failed to update Cargo lock file"]).
Proof.
  split; [apply narrowing_calls|].
  intros l c e w1 t1 content Hlocate Hwork Hattempt Hmsg Hread Hlen.
  rewrite updateArtifactsImpl_unfold, Hlocate, (has_work_test _ Hwork), Hattempt.
  apply String.eqb_neq in Hmsg. rewrite Hmsg.
  rewrite (retry_request_None _ _ _ _ _ Hread Hlen). by destruct recursionLimit.
Qed.


(** C9: a request that is not a lock file maintenance fails with the
    recoverable signature, and the lock file read again already has every
    requested upgrade at its new version, so the filter leaves none.  The
    invocation then re-enters itself with no upgrade, and that invocation
    returns the lock file it finds, with its current content, as a file
    addition; it writes nothing and calls no resolver. *)
Theorem retry_with_nothing_left ua n w l c e w1 t1 content l' c' :
  locate ua w = Some (l, c) →
  isLockFileMaintenance (config ua) = false →
  updatedDeps ua ≠ [] →
  attempt ua l c w = (Throw e, w1, t1) →
  message e ≠ TEMPORARY_ERROR →
  asTruthy (fs_readLocalFile l w1) = Some content →
  test_packageIdSpecification (stderr e) = true →
  filterUpdatedDeps (extractLockFileContentVersions content) (updatedDeps ua) = [] →
  locate ua w1 = Some (l', c') →
  updateArtifactsImpl ua (S n) w =
    (Normal (Some [file_addition l' (Some c')]), w1,
     entry_events ua (S n) ++ t1 ++
     [EvLog Debug "Dependency already up to date - reattempting recursively";
      EvCall [] n;
      EvLog Debug ("cargo.updateArtifacts(" +:+ packageFileName ua +:+ ")");
      EvLog Debug "No more dependencies to update"]).
Proof.
  intros Hlocate Hmaint Hdeps Hattempt Hmsg Hread Hsig Hfilter Hlocate'.
  rewrite updateArtifactsImpl_unfold, Hlocate.
  rewrite has_work_test by (by right). rewrite Hattempt.
  apply String.eqb_neq in Hmsg. rewrite Hmsg.
  unfold retry_request. rewrite Hread, Hsig, Hfilter.
  destruct (updatedDeps ua) as [|dep deps] eqn:Edeps; [done|]. cbn [length Nat.ltb Nat.leb].
  rewrite updateArtifactsImpl_unfold.
  unfold locate in *. cbn [packageFileName updatedDeps config] in *.
  destruct (asTruthy (fs_findLocalSiblingOrParent _ _ w1)) as [l2|]; [|done].
  destruct (fs_readLocalFile_buffer l2 w1) as [c2|]; [|done].
  injection Hlocate' as -> ->. rewrite Hmaint. reflexivity.
Qed.

(** C8, as the code has it: [writeLocalFile] is called inside the [try]
    block, so an error it throws reaches the same handler as a failure of the
    resolver.  It is thrown on only when its message is [TEMPORARY_ERROR];
    otherwise, when its [stderr] does not carry the recoverable signature (an
    I/O error has no [stderr]), the invocation returns the artifact error with
    the lock file name and the error's message.  In both cases nothing
    follows the failed write: no resolver call and no retry. *)
Theorem manifest_write_failure_is_handled ua recursionLimit w l c e w1 :
  locate ua w = Some (l, c) →
  has_work ua →
  fs_writeLocalFile (packageFileName ua) (newPackageFileContent ua) w = (Throw e, w1) →
  (message e = TEMPORARY_ERROR →
   updateArtifactsImpl ua recursionLimit w =
     (Throw e, w1,
      entry_events ua recursionLimit ++
      [EvWriteLocalFile (packageFileName ua) (newPackageFileContent ua)])) ∧
  (message e ≠ TEMPORARY_ERROR →
   test_packageIdSpecification (stderr e) = false →
   updateArtifactsImpl ua recursionLimit w =
     (Normal (Some [artifactError l (message e)]), w1,
      entry_events ua recursionLimit ++
      [EvWriteLocalFile (packageFileName ua) (newPackageFileContent ua);
       EvLog Debug "Failed to update Cargo lock file"])).
Proof.
  intros Hlocate Hwork Hwrite.
  assert (attempt ua l c w =
          (Throw e, w1, [EvWriteLocalFile (packageFileName ua) (newPackageFileContent ua)]))
    as Hattempt by (by rewrite attempt_unfold, Hwrite).
  rewrite updateArtifactsImpl_unfold, Hlocate, (has_work_test _ Hwork), Hattempt.
  split.
  - intros ->. by rewrite String.eqb_refl.
  - intros Hmsg%String.eqb_neq Hsig. rewrite Hmsg.
    unfold retry_request. rewrite Hsig.
    by destruct recursionLimit, (asTruthy (fs_readLocalFile l w1)).
Qed.

(** ** Further properties of [updateArtifactsImpl] *)

Lemma work_test_false ua :
  negb (isLockFileMaintenance (config ua)) && (length (updatedDeps ua) =? 0)%nat = false →
  has_work ua.
Proof.
  unfold has_work. destruct (isLockFileMaintenance (config ua)); [by left|].
  destruct (updatedDeps ua); [done|]. by right.
Qed.

Lemma work_test_true ua :
  negb (isLockFileMaintenance (config ua)) && (length (updatedDeps ua) =? 0)%nat = true →
  isLockFileMaintenance (config ua) = false ∧ updatedDeps ua = [].
Proof.
  destruct (isLockFileMaintenance (config ua)); [done|].
  by destruct (updatedDeps ua).
Qed.

(** Induction along the invocations of a call: the six ways an invocation
    ends, the recursive one with the property of the invocation it makes. *)
Lemma updateArtifactsImpl_cases
    (P : UpdateArtifact → nat → World →
         Completion (option (list UpdateArtifactsResult)) * World * list Event → Prop) :
  (∀ ua limit w,
     locate ua w = None →
     P ua limit w
       (Normal None, w, entry_events ua limit ++ [EvLog Debug "No Cargo.lock found"])) →
  (∀ ua limit w l c,
     locate ua w = Some (l, c) →
     isLockFileMaintenance (config ua) = false → updatedDeps ua = [] →
     P ua limit w
       (Normal (Some [file_addition l (Some c)]), w,
        entry_events ua limit ++ [EvLog Debug "No more dependencies to update"])) →
  (∀ ua limit w l c r w1 t1,
     locate ua w = Some (l, c) → has_work ua →
     attempt ua l c w = (Normal r, w1, t1) →
     P ua limit w (Normal r, w1, entry_events ua limit ++ t1)) →
  (∀ ua limit w l c e w1 t1,
     locate ua w = Some (l, c) → has_work ua →
     attempt ua l c w = (Throw e, w1, t1) →
     message e = TEMPORARY_ERROR →
     P ua limit w (Throw e, w1, entry_events ua limit ++ t1)) →
  (∀ ua n w l c e w1 t1 ua' r w2 t2,
     locate ua w = Some (l, c) → has_work ua →
     attempt ua l c w = (Throw e, w1, t1) →
     message e ≠ TEMPORARY_ERROR →
     retry_request ua l e w1 = Some ua' →
     updateArtifactsImpl ua' n w1 = (r, w2, t2) →
     P ua' n w1 (r, w2, t2) →
     P ua (S n) w
       (r, w2,
        entry_events ua (S n) ++ t1 ++
        EvLog Debug "Dependency already up to date - reattempting recursively" :: t2)) →
  (∀ ua limit w l c e w1 t1,
     locate ua w = Some (l, c) → has_work ua →
     attempt ua l c w = (Throw e, w1, t1) →
     message e ≠ TEMPORARY_ERROR →
     limit = 0 ∨ retry_request ua l e w1 = None →
     P ua limit w
       (Normal (Some [artifactError l (message e)]), w1,
        entry_events ua limit ++ t1 ++ [EvLog Debug "Failed to update Cargo lock file"])) →
  ∀ ua limit w, P ua limit w (updateArtifactsImpl ua limit w).
Proof.
  intros Hnone Hshort Hok Hfatal Hretry Hfailed ua limit. revert ua.
  induction limit as [|n IH]; intros ua w; rewrite updateArtifactsImpl_unfold.
  all: destruct (locate ua w) as [[l c]|] eqn:Hlocate; [|by apply Hnone].
  all: destruct (negb _ && _) eqn:Hwork;
    [apply work_test_true in Hwork as [? ?]; by apply Hshort|apply work_test_false in Hwork].
  all: destruct (attempt ua l c w) as [[[r|e] w1] t1] eqn:Hattempt; [by eapply Hok|].
  all: destruct (String.eqb _ _) eqn:Hmsg;
    [apply String.eqb_eq in Hmsg; by eapply Hfatal|apply String.eqb_neq in Hmsg].
  - eapply Hfailed; eauto.
  - destruct (retry_request ua l e w1) as [ua'|] eqn:Hrequest; [|eapply Hfailed; eauto].
    specialize (IH ua' w1).
    destruct (updateArtifactsImpl ua' n w1) as [[r w2] t2] eqn:Hrun.
    eapply Hretry; eauto.
Qed.

Lemma exec_opts_app t1 t2 : exec_opts (t1 ++ t2) = exec_opts t1 ++ exec_opts t2.
Proof. apply omap_app. Qed.

Lemma warn_quiet warn :
  Forall (λ ev, ∃ m, ev = EvLog Warn m) warn → write_calls warn = [] ∧ exec_opts warn = [].
Proof.
  induction 1 as [|ev warn [m ->] _ [IH1 IH2]]; [done|].
  split; [exact IH1|exact IH2].
Qed.

(** The options of the one [exec] call of [invokeResolver]. *)
Lemma invokeResolver_opts ua w :
  exec_opts (events (invokeResolver ua w)) =
  [{| extraEnv := getGitEnvironmentVariables ["cargo"];
      docker := tt;
      toolConstraints :=
        [{| toolName := "rust"; constraint := constraints_rust (config ua) |}] |}].
Proof.
  unfold invokeResolver.
  destruct (isLockFileMaintenance (config ua)).
  { unfold cargoUpdate. by rewrite exec_run. }
  destruct (bool_decide _ || bool_decide _).
  - destruct (find _ (updatedDeps ua)); unfold cargoUpdate; run_M; by rewrite exec_run.
  - unfold cargoUpdatePrecise. by rewrite exec_run.
Qed.

(** The commands of the one [exec] call of [invokeResolver] for a lock file
    maintenance. *)
Lemma invokeResolver_maintenance ua w :
  isLockFileMaintenance (config ua) = true →
  exec_calls (events (invokeResolver ua w)) =
  [["cargo update --config net.git-fetch-with-cli=true --manifest-path " +:+
    quote (packageFileName ua)]].
Proof. unfold invokeResolver. intros ->. unfold cargoUpdate. by rewrite exec_run. Qed.

(** What an attempt leaves in the trace: one write of the manifest, and the
    [exec] call of [invokeResolver] when the write succeeded. *)
Lemma attempt_trace ua l c w :
  write_calls (events (attempt ua l c w)) =
    [(packageFileName ua, newPackageFileContent ua)] ∧
  ((∃ e w1, fs_writeLocalFile (packageFileName ua) (newPackageFileContent ua) w = (Throw e, w1) ∧
            attempt ua l c w =
              (Throw e, w1, [EvWriteLocalFile (packageFileName ua) (newPackageFileContent ua)])) ∨
   (∃ w1, fs_writeLocalFile (packageFileName ua) (newPackageFileContent ua) w = (Normal tt, w1) ∧
          exec_calls (events (attempt ua l c w)) = exec_calls (events (invokeResolver ua w1)) ∧
          exec_opts (events (attempt ua l c w)) = exec_opts (events (invokeResolver ua w1)) ∧
          (∀ e, completion (attempt ua l c w) = Throw e →
                completion (invokeResolver ua w1) = Throw e))).
Proof.
  rewrite attempt_unfold. cbn zeta.
  destruct (fs_writeLocalFile _ _ w) as [[[]|e] w1]; [|split; [done|left; by eauto]].
  destruct (invokeResolver_run ua w1) as (warn & cmds & opts & Hwarn & Hrun).
  pose proof (warn_calls _ Hwarn) as [_ He]. pose proof (warn_quiet _ Hwarn) as [Hw Ho].
  assert (exec_calls (events (invokeResolver ua w1)) = [cmds] ∧
          exec_opts (events (invokeResolver ua w1)) = [opts]) as [Hcmds Hopts].
  { rewrite Hrun. unfold events; cbn [fst snd].
    by rewrite exec_calls_app, exec_opts_app, He, Ho. }
  assert (completion (invokeResolver ua w1) = (proc_exec cmds opts w1).1) as Hend
    by (by rewrite Hrun).
  rewrite Hrun.
  destruct (proc_exec cmds opts w1) as [[[]|e] w2]; cbn [fst snd] in *;
    [destruct (strictly_equal _ _)|]; unfold events, completion in *; cbn [fst snd] in *;
    rewrite ?app_comm_cons, !write_calls_app, !exec_calls_app, !exec_opts_app;
    change (write_calls (_ :: _ :: warn)) with
      ((packageFileName ua, newPackageFileContent ua) :: write_calls warn);
    change (exec_calls (_ :: _ :: warn)) with (exec_calls warn);
    change (exec_opts (_ :: _ :: warn)) with (exec_opts warn);
    rewrite Hw, He, Ho; (split; [done|]); right; exists w1;
    rewrite Hcmds, Hopts, Hend; (split; [done|]); (split; [done|]); (split; [done|]);
    intros ? ?; by simplify_eq.
Qed.

(** X1: the only error a call throws is a fatal one: when the promise
    rejects, the error's message is [TEMPORARY_ERROR], whatever the
    collaborators did and however often the call retried. *)
Theorem only_fatal_errors_escape ua recursionLimit w e :
  completion (updateArtifactsImpl ua recursionLimit w) = Throw e →
  message e = TEMPORARY_ERROR.
Proof.
  revert e. pattern ua, recursionLimit, w, (updateArtifactsImpl ua recursionLimit w).
  apply updateArtifactsImpl_cases; clear; unfold completion; cbn [fst snd];
    try (intros; discriminate).
  - intros ua limit w l c e w1 t1 _ _ _ Hmsg e' [= <-]. exact Hmsg.
  - intros ua n w l c e w1 t1 ua' r w2 t2 _ _ _ _ _ _ IH e' He'. by apply IH.
Qed.

(** X2: a call that returns, returns [null] or an array of exactly one
    result, which is a file addition or an artifact error. *)
Theorem result_shape ua recursionLimit w res :
  completion (updateArtifactsImpl ua recursionLimit w) = Normal res →
  res = None ∨
  ∃ lockFile,
    (∃ contents, res = Some [file_addition lockFile contents]) ∨
    (∃ msg, res = Some [artifactError lockFile msg]).
Proof.
  revert res. pattern ua, recursionLimit, w, (updateArtifactsImpl ua recursionLimit w).
  apply updateArtifactsImpl_cases; clear; unfold completion; cbn [fst snd];
    try (intros; discriminate).
  - intros ua limit w _ res [= <-]. by left.
  - intros ua limit w l c _ _ _ res [= <-]. right. exists l. left. by eexists.
  - intros ua limit w l c r w1 t1 _ _ Hattempt res [= <-].
    rewrite attempt_unfold in Hattempt. cbn zeta in Hattempt.
    destruct (fs_writeLocalFile _ _ w) as [[[]|e] w'']; [|done].
    destruct (invokeResolver ua w'') as [[[[]|e] w2] t]; [|done].
    destruct (strictly_equal _ _); injection Hattempt as <- _ _; [by left|].
    right. exists l. left. by eexists.
  - intros ua n w l c e w1 t1 ua' r w2 t2 _ _ _ _ _ _ IH res Hres. by apply IH.
  - intros ua limit w l c e w1 t1 _ _ _ _ _ res [= <-]. right. exists l. right. by eexists.
Qed.

(** X3: when the manifest is written, the resolver succeeds and the lock
    file read afterwards is not the very object read before (whatever the
    two hold), the call returns one file addition for the lock file with what
    was read: the [Buffer], or [null] when the lock file can no longer be
    read. *)
Theorem changed_lock_file_is_addition ua recursionLimit w l c w1 w2 t :
  locate ua w = Some (l, c) →
  has_work ua →
  fs_writeLocalFile (packageFileName ua) (newPackageFileContent ua) w = (Normal tt, w1) →
  invokeResolver ua w1 = (Normal tt, w2, t) →
  strictly_equal c (fs_readLocalFile_buffer l w2) = false →
  updateArtifactsImpl ua recursionLimit w =
    (Normal (Some [file_addition l (fs_readLocalFile_buffer l w2)]), w2,
     entry_events ua recursionLimit ++
     [EvWriteLocalFile (packageFileName ua) (newPackageFileContent ua);
      EvLog Debug ("Updating " +:+ l)] ++ t ++
     [EvLog Debug "Returning updated Cargo.lock"]).
Proof.
  intros Hlocate Hwork Hwrite Hresolve Hread.
  rewrite updateArtifactsImpl_unfold, Hlocate, (has_work_test _ Hwork).
  by rewrite attempt_unfold, Hwrite, Hresolve, Hread.
Qed.

(** X4: a request that is not a lock file maintenance and names no upgrade is
    answered at once with the lock file as it is, as a file addition: nothing
    is written, no command runs, and the recursion limit plays no part. *)
Theorem nothing_to_update ua recursionLimit w l c :
  locate ua w = Some (l, c) →
  isLockFileMaintenance (config ua) = false →
  updatedDeps ua = [] →
  updateArtifactsImpl ua recursionLimit w =
    (Normal (Some [file_addition l (Some c)]), w,
     entry_events ua recursionLimit ++ [EvLog Debug "No more dependencies to update"]).
Proof.
  intros Hlocate Hmaint Hdeps.
  rewrite updateArtifactsImpl_unfold, Hlocate, Hmaint, Hdeps. reflexivity.
Qed.

Lemma write_calls_entry ua recursionLimit t :
  write_calls (entry_events ua recursionLimit ++ t) = write_calls t.
Proof. reflexivity. Qed.

Lemma exec_opts_entry ua recursionLimit t :
  exec_opts (entry_events ua recursionLimit ++ t) = exec_opts t.
Proof. reflexivity. Qed.

Lemma retries_entry_retry ua limit t1 msg ua' n w1 :
  impl_calls t1 = [] →
  retries (entry_events ua limit ++ t1 ++ EvLog Debug msg :: events (updateArtifactsImpl ua' n w1)) =
  S (retries (events (updateArtifactsImpl ua' n w1))).
Proof.
  intros Hcalls. unfold retries.
  rewrite impl_calls_entry, impl_calls_app, Hcalls.
  change (impl_calls (_ :: ?t)) with (impl_calls t).
  by destruct (impl_calls_head ua' n w1) as [rest ->].
Qed.

(** X5: every write of a call puts the caller's new manifest content at the
    manifest path, also in the retries; the resolver runs at most as often as
    the manifest was written, and the manifest is written at most once per
    invocation. *)
Theorem manifest_written_before_resolver ua recursionLimit w :
  Forall (λ written, written = (packageFileName ua, newPackageFileContent ua))
    (write_calls (events (updateArtifactsImpl ua recursionLimit w))) ∧
  (length (exec_calls (events (updateArtifactsImpl ua recursionLimit w))) ≤
   length (write_calls (events (updateArtifactsImpl ua recursionLimit w))))%nat ∧
  (length (write_calls (events (updateArtifactsImpl ua recursionLimit w))) ≤
   S (retries (events (updateArtifactsImpl ua recursionLimit w))))%nat.
Proof.
  pattern ua, recursionLimit, w, (updateArtifactsImpl ua recursionLimit w).
  apply updateArtifactsImpl_cases; clear; unfold events; cbn [fst snd].
  - intros. cbn. split; [constructor|lia].
  - intros. cbn. split; [constructor|lia].
  - intros ua limit w l c r w1 t1 _ _ Hattempt.
    pose proof (attempt_trace ua l c w) as [Hw _].
    pose proof (attempt_calls ua l c w) as [Hc He].
    rewrite Hattempt in Hw, Hc, He. unfold events, retries in *; cbn [fst snd] in *.
    rewrite write_calls_entry, exec_calls_entry, impl_calls_entry, Hw, Hc. cbn.
    split; [by repeat constructor|lia].
  - intros ua limit w l c e w1 t1 _ _ Hattempt _.
    pose proof (attempt_trace ua l c w) as [Hw _].
    pose proof (attempt_calls ua l c w) as [Hc He].
    rewrite Hattempt in Hw, Hc, He. unfold events, retries in *; cbn [fst snd] in *.
    rewrite write_calls_entry, exec_calls_entry, impl_calls_entry, Hw, Hc. cbn.
    split; [by repeat constructor|lia].
  - intros ua n w l c e w1 t1 ua' r w2 t2 _ _ Hattempt _ Hrequest Hrun (IHw & IHe & IHr).
    pose proof (attempt_trace ua l c w) as [Hw _].
    pose proof (attempt_calls ua l c w) as [Hc He].
    rewrite Hattempt in Hw, Hc, He. unfold events in *; cbn [fst snd] in *.
    pose proof (retries_entry_retry ua (S n) t1
      "Dependency already up to date - reattempting recursively" ua' n w1 Hc) as Hretries.
    rewrite Hrun in Hretries. unfold events in Hretries; cbn [fst snd] in Hretries.
    rewrite Hretries.
    apply retry_request_Some in Hrequest as (content & _ & _ & -> & _).
    cbn [packageFileName newPackageFileContent] in IHw.
    rewrite write_calls_entry, exec_calls_entry, write_calls_app, exec_calls_app, Hw.
    change (write_calls (_ :: t2)) with (write_calls t2).
    change (exec_calls (_ :: t2)) with (exec_calls t2).
    rewrite !length_app. cbn [length app].
    split; [by constructor|lia].
  - intros ua limit w l c e w1 t1 _ _ Hattempt _ _.
    pose proof (attempt_trace ua l c w) as [Hw _].
    pose proof (attempt_calls ua l c w) as [Hc He].
    rewrite Hattempt in Hw, Hc, He. unfold events, retries in *; cbn [fst snd] in *.
    rewrite write_calls_entry, exec_calls_entry, impl_calls_entry,
      write_calls_app, exec_calls_app, impl_calls_app, Hw, Hc.
    change (exec_calls [EvLog _ _]) with (@nil (list string)).
    rewrite !app_nil_r. cbn. split; [by repeat constructor|lia].
Qed.

Lemma attempt_maintenance ua l c w r w1 t1 :
  attempt ua l c w = (r, w1, t1) →
  isLockFileMaintenance (config ua) = true →
  Forall (λ cmds,
      cmds = ["cargo update --config net.git-fetch-with-cli=true --manifest-path " +:+
              quote (packageFileName ua)])
    (exec_calls t1).
Proof.
  intros Hattempt Hmaint.
  destruct (attempt_trace ua l c w) as [_ [(e & w' & _ & Hrun)|(w' & _ & He & _)]];
    rewrite Hattempt in *.
  - injection Hrun as _ _ ->. constructor.
  - change (events (r, w1, t1)) with t1 in He.
    rewrite He, invokeResolver_maintenance by done. by repeat constructor.
Qed.

Lemma attempt_opts ua l c w r w1 t1 :
  attempt ua l c w = (r, w1, t1) →
  Forall (λ opts,
      opts = {| extraEnv := getGitEnvironmentVariables ["cargo"];
                docker := tt;
                toolConstraints :=
                  [{| toolName := "rust"; constraint := constraints_rust (config ua) |}] |})
    (exec_opts t1).
Proof.
  intros Hattempt.
  destruct (attempt_trace ua l c w) as [_ [(e & w' & _ & Hrun)|(w' & _ & _ & Ho & _)]];
    rewrite Hattempt in *.
  - injection Hrun as _ _ ->. constructor.
  - change (events (r, w1, t1)) with t1 in Ho.
    rewrite Ho, invokeResolver_opts. by repeat constructor.
Qed.

(** X6: in a lock file maintenance every resolver call of the call, the
    retries included, runs the one update command of the manifest: no
    [--workspace] update and no [--precise] pin is ever issued. *)
Theorem maintenance_never_pins ua recursionLimit w :
  isLockFileMaintenance (config ua) = true →
  Forall (λ cmds,
      cmds = ["cargo update --config net.git-fetch-with-cli=true --manifest-path " +:+
              quote (packageFileName ua)])
    (exec_calls (events (updateArtifactsImpl ua recursionLimit w))).
Proof.
  pattern ua, recursionLimit, w, (updateArtifactsImpl ua recursionLimit w).
  apply updateArtifactsImpl_cases; clear; unfold events; cbn [fst snd].
  - intros. constructor.
  - intros. constructor.
  - intros ua limit w l c r w1 t1 _ _ Hattempt Hmaint. rewrite exec_calls_entry.
    by eapply attempt_maintenance.
  - intros ua limit w l c e w1 t1 _ _ Hattempt _ Hmaint. rewrite exec_calls_entry.
    by eapply attempt_maintenance.
  - intros ua n w l c e w1 t1 ua' r w2 t2 _ _ Hattempt _ Hrequest _ IH Hmaint.
    apply retry_request_Some in Hrequest as (content & _ & _ & -> & _).
    cbn [packageFileName config] in IH. specialize (IH Hmaint).
    rewrite exec_calls_entry, exec_calls_app.
    change (exec_calls (_ :: t2)) with (exec_calls t2).
    apply Forall_app. split; [by eapply attempt_maintenance|done].
  - intros ua limit w l c e w1 t1 _ _ Hattempt _ _ Hmaint.
    rewrite exec_calls_entry, exec_calls_app.
    change (exec_calls [EvLog _ _]) with (@nil (list string)). rewrite app_nil_r.
    by eapply attempt_maintenance.
Qed.

(** X7: every resolver call of a call, the retries included, gets the same
    options: the git environment of [cargo], an empty [docker] object and the
    one tool constraint of [rust] with the [constraints.rust] of the
    configuration. *)
Theorem exec_options_invariant ua recursionLimit w :
  Forall (λ opts,
      opts = {| extraEnv := getGitEnvironmentVariables ["cargo"];
                docker := tt;
                toolConstraints :=
                  [{| toolName := "rust"; constraint := constraints_rust (config ua) |}] |})
    (exec_opts (events (updateArtifactsImpl ua recursionLimit w))).
Proof.
  pattern ua, recursionLimit, w, (updateArtifactsImpl ua recursionLimit w).
  apply updateArtifactsImpl_cases; clear; unfold events; cbn [fst snd].
  - intros. constructor.
  - intros. constructor.
  - intros ua limit w l c r w1 t1 _ _ Hattempt. rewrite exec_opts_entry.
    by eapply attempt_opts.
  - intros ua limit w l c e w1 t1 _ _ Hattempt _. rewrite exec_opts_entry.
    by eapply attempt_opts.
  - intros ua n w l c e w1 t1 ua' r w2 t2 _ _ Hattempt _ Hrequest _ IH.
    apply retry_request_Some in Hrequest as (content & _ & _ & -> & _).
    cbn [config] in IH.
    rewrite exec_opts_entry, exec_opts_app.
    change (exec_opts (_ :: t2)) with (exec_opts t2).
    apply Forall_app. split; [by eapply attempt_opts|done].
  - intros ua limit w l c e w1 t1 _ _ Hattempt _ _.
    rewrite exec_opts_entry, exec_opts_app.
    change (exec_opts [EvLog _ _]) with (@nil ExecOptions). rewrite app_nil_r.
    by eapply attempt_opts.
Qed.

(** X8: a call retries at most as often as it was given upgrades, whatever
    the recursion limit: every retry has dropped at least one of them. *)
Theorem retries_bounded_by_upgrades ua recursionLimit w :
  (retries (events (updateArtifactsImpl ua recursionLimit w)) ≤ length (updatedDeps ua))%nat.
Proof.
  pattern ua, recursionLimit, w, (updateArtifactsImpl ua recursionLimit w).
  apply updateArtifactsImpl_cases; clear.
  - intros. cbn. lia.
  - intros. cbn. lia.
  - intros ua limit w l c r w1 t1 _ _ Hattempt.
    pose proof (attempt_calls ua l c w) as [Hc _]. rewrite Hattempt in Hc.
    unfold retries, events in *; cbn [fst snd] in *.
    rewrite impl_calls_entry, Hc. cbn. lia.
  - intros ua limit w l c e w1 t1 _ _ Hattempt _.
    pose proof (attempt_calls ua l c w) as [Hc _]. rewrite Hattempt in Hc.
    unfold retries, events in *; cbn [fst snd] in *.
    rewrite impl_calls_entry, Hc. cbn. lia.
  - intros ua n w l c e w1 t1 ua' r w2 t2 _ _ Hattempt _ Hrequest Hrun IH.
    pose proof (attempt_calls ua l c w) as [Hc _]. rewrite Hattempt in Hc.
    unfold events in Hc; cbn [fst snd] in Hc.
    apply retry_request_Some in Hrequest as (content & _ & _ & _ & Hlen).
    pose proof (retries_entry_retry ua (S n) t1
      "Dependency already up to date - reattempting recursively" ua' n w1 Hc) as Hretries.
    rewrite Hrun in Hretries. unfold events in *; cbn [fst snd] in *.
    rewrite Hretries. lia.
  - intros ua limit w l c e w1 t1 _ _ Hattempt _ _.
    pose proof (attempt_calls ua l c w) as [Hc _]. rewrite Hattempt in Hc.
    unfold retries, events in *; cbn [fst snd] in *.
    rewrite impl_calls_entry, impl_calls_app, Hc. cbn. lia.
Qed.

(** X9: the recovery step.  After a failure that is not fatal and carries the
    signature, with a lock file that can be read again and a filter that
    drops at least one upgrade, an invocation with a positive recursion limit
    ends as the invocation it makes does: with the upgrades the filter kept,
    the limit decremented by one, the same manifest and configuration, and
    from the working tree the failure left. *)
Theorem recovery_step ua n w l c e w1 t1 content :
  locate ua w = Some (l, c) →
  has_work ua →
  attempt ua l c w = (Throw e, w1, t1) →
  message e ≠ TEMPORARY_ERROR →
  asTruthy (fs_readLocalFile l w1) = Some content →
  test_packageIdSpecification (stderr e) = true →
  length (filterUpdatedDeps (extractLockFileContentVersions content) (updatedDeps ua)) <
    length (updatedDeps ua) →
  let retried :=
    updateArtifactsImpl {|
      packageFileName := packageFileName ua;
      updatedDeps :=
        filterUpdatedDeps (extractLockFileContentVersions content) (updatedDeps ua);
      newPackageFileContent := newPackageFileContent ua;
      config := config ua;
    |} n w1 in
  updateArtifactsImpl ua (S n) w =
    (completion retried, world retried,
     entry_events ua (S n) ++ t1 ++
     EvLog Debug "Dependency already up to date - reattempting recursively" ::
     events retried).
Proof.
  intros Hlocate Hwork Hattempt Hmsg Hread Hsig Hlen retried. subst retried.
  rewrite updateArtifactsImpl_unfold, Hlocate, (has_work_test _ Hwork), Hattempt.
  apply String.eqb_neq in Hmsg. rewrite Hmsg.
  unfold retry_request. rewrite Hread, Hsig.
  apply Nat.ltb_lt in Hlen. rewrite Hlen.
  by destruct (updateArtifactsImpl _ n w1) as [[r w2] t2].
Qed.

(** X10: with the recursion limit at zero a failure that is not fatal ends
    the call with the artifact error, even when it carries the signature and
    the filter would have dropped upgrades. *)
Theorem exhausted_budget_is_terminal ua w l c e w1 t1 :
  locate ua w = Some (l, c) →
  has_work ua →
  attempt ua l c w = (Throw e, w1, t1) →
  message e ≠ TEMPORARY_ERROR →
  updateArtifactsImpl ua 0 w =
    (Normal (Some [artifactError l (message e)]), w1,
     entry_events ua 0 ++ t1 ++ [EvLog Debug "Failed to update Cargo lock file"]).
Proof.
  intros Hlocate Hwork Hattempt Hmsg.
  rewrite updateArtifactsImpl_unfold, Hlocate, (has_work_test _ Hwork), Hattempt.
  apply String.eqb_neq in Hmsg. by rewrite Hmsg.
Qed.

Lemma filterUpdatedDeps_None deps : filterUpdatedDeps None deps = deps.
Proof.
  unfold filterUpdatedDeps. induction deps as [|dep deps IH]; [done|].
  rewrite filter_cons. destruct (decide _) as [Hkeep|Hdrop]; [by rewrite IH|].
  exfalso. apply Hdrop. cbn. by destruct (newVersion dep).
Qed.

(** X11: when [extractLockFileContentVersions] returns [null] for the lock
    file read again, the filter keeps every upgrade, so the failure is not
    retried: the call returns the artifact error. *)
Theorem unparsable_lock_file_stops_recovery ua recursionLimit w l c e w1 t1 content :
  locate ua w = Some (l, c) →
  has_work ua →
  attempt ua l c w = (Throw e, w1, t1) →
  message e ≠ TEMPORARY_ERROR →
  asTruthy (fs_readLocalFile l w1) = Some content →
  extractLockFileContentVersions content = None →
  updateArtifactsImpl ua recursionLimit w =
    (Normal (Some [artifactError l (message e)]), w1,
     entry_events ua recursionLimit ++ t1 ++ [EvLog Debug "Failed to update Cargo lock file"]).
Proof.
  intros Hlocate Hwork Hattempt Hmsg Hread Hextract.
  rewrite updateArtifactsImpl_unfold, Hlocate, (has_work_test _ Hwork), Hattempt.
  apply String.eqb_neq in Hmsg. rewrite Hmsg.
  rewrite (retry_request_None _ _ _ _ content Hread);
    [by destruct recursionLimit|].
  by rewrite Hextract, filterUpdatedDeps_None.
Qed.

Lemma filterUpdatedDeps_idempotent versions deps :
  filterUpdatedDeps versions (filterUpdatedDeps versions deps) =
  filterUpdatedDeps versions deps.
Proof.
  unfold filterUpdatedDeps. induction deps as [|dep deps IH]; [done|].
  rewrite filter_cons. destruct (decide _) as [Hkeep|Hdrop]; [|exact IH].
  rewrite filter_cons. destruct (decide _); [|done]. by rewrite IH.
Qed.

(** X12: a retry that fails without progress stops.  When the upgrades of an
    invocation are what the filter kept for some lock file content, and its
    attempt fails leaving the lock file with versions extracted alike, the
    filter drops nothing more and the call returns the artifact error. *)
Theorem stalled_recovery_is_terminal ua recursionLimit w l c e w1 t1 content content0 deps0 :
  locate ua w = Some (l, c) →
  has_work ua →
  attempt ua l c w = (Throw e, w1, t1) →
  message e ≠ TEMPORARY_ERROR →
  asTruthy (fs_readLocalFile l w1) = Some content →
  updatedDeps ua = filterUpdatedDeps (extractLockFileContentVersions content0) deps0 →
  extractLockFileContentVersions content = extractLockFileContentVersions content0 →
  updateArtifactsImpl ua recursionLimit w =
    (Normal (Some [artifactError l (message e)]), w1,
     entry_events ua recursionLimit ++ t1 ++ [EvLog Debug "Failed to update Cargo lock file"]).
Proof.
  intros Hlocate Hwork Hattempt Hmsg Hread Hdeps Hsame.
  rewrite updateArtifactsImpl_unfold, Hlocate, (has_work_test _ Hwork), Hattempt.
  apply String.eqb_neq in Hmsg. rewrite Hmsg.
  rewrite (retry_request_None _ _ _ _ content Hread);
    [by destruct recursionLimit|].
  by rewrite Hsame, Hdeps, filterUpdatedDeps_idempotent.
Qed.

Lemma prefix_spec (pat s : string) :
  String.prefix pat s = true ↔ ∃ post, s = pat +:+ post.
Proof.
  revert s. induction pat as [|a pat IH]; intros s.
  - destruct s; (split; [intros _; eexists; reflexivity|reflexivity]).
  - destruct s as [|b s].
    + split; [intros [=]|]. intros [post Hpost]. discriminate Hpost.
    + change (String.prefix (String a pat) (String b s))
        with (if Ascii.ascii_dec a b then String.prefix pat s else false).
      change (λ post, String b s = String a pat +:+ post)
        with (λ post, String b s = String a (pat +:+ post)).
      destruct (Ascii.ascii_dec a b) as [->|Hne].
      * rewrite IH. split; intros [post Hpost]; exists post; [by rewrite Hpost|].
        by injection Hpost.
      * split; [intros [=]|]. intros [post [= ? _]]. congruence.
Qed.

Lemma str_includes_spec (pat s : string) :
  str_includes pat s = true ↔ ∃ pre post, s = pre +:+ pat +:+ post.
Proof.
  induction s as [|a s IH]; cbn [str_includes]; rewrite orb_true_iff, prefix_spec.
  - split.
    + intros [[post Hpost]|?]; [|done]. by exists "", post.
    + intros (pre & post & Hs). left. destruct pre; [by exists post|discriminate Hs].
  - rewrite IH. split.
    + intros [[post Hpost]|(pre & post & Hs)]; [by exists "", post|].
      exists (String a pre), post. rewrite Hs. reflexivity.
    + intros (pre & post & Hs). destruct pre as [|b pre]; [left; by exists post|].
      right. change (String b pre +:+ pat +:+ post) with (String b (pre +:+ pat +:+ post)) in Hs.
      injection Hs as _ Hs. by exists pre, post.
Qed.

(** X13: the signature test of the recovery step holds exactly when the
    failure has a [stderr] and the text [error: package ID specification]
    occurs somewhere in it; an error without [stderr] never passes. *)
Theorem signature_test_is_substring (err_stderr : option string) :
  test_packageIdSpecification err_stderr = true ↔
  ∃ text pre post,
    err_stderr = Some text ∧
    text = pre +:+ "error: package ID specification" +:+ post.
Proof.
  unfold test_packageIdSpecification. destruct err_stderr as [text|]; cbn [js_String].
  - rewrite str_includes_spec. split.
    + intros (pre & post & Hs). by exists text, pre, post.
    + intros (text' & pre & post & [= <-] & Hs). by exists pre, post.
  - split; [by vm_compute|]. by intros (? & ? & ? & [=] & _).
Qed.

(** X14: when no write and no command fails, a call never retries and never
    reports an error: it returns [null] or one file addition. *)
Theorem healthy_resolver_never_errors ua recursionLimit w :
  (∀ name content w0, (fs_writeLocalFile name content w0).1 = Normal tt) →
  (∀ cmds opts w0, (proc_exec cmds opts w0).1 = Normal tt) →
  retries (events (updateArtifactsImpl ua recursionLimit w)) = 0 ∧
  (completion (updateArtifactsImpl ua recursionLimit w) = Normal None ∨
   ∃ lockFile contents,
     completion (updateArtifactsImpl ua recursionLimit w) =
     Normal (Some [file_addition lockFile contents])).
Proof.
  intros Hwrite Hexec. rewrite updateArtifactsImpl_unfold.
  destruct (locate ua w) as [[l c]|]; [|split; [done|by left]].
  destruct (negb _ && _); [split; [done|right; by eexists _, _]|].
  pose proof (attempt_calls ua l c w) as [Hcalls _]. revert Hcalls.
  rewrite attempt_unfold. cbn zeta.
  specialize (Hwrite (packageFileName ua) (newPackageFileContent ua) w).
  destruct (fs_writeLocalFile _ _ w) as [[[]|e] w1]; [|done].
  destruct (invokeResolver_run ua w1) as (warn & cmds & opts & _ & ->).
  specialize (Hexec cmds opts w1).
  destruct (proc_exec cmds opts w1) as [[[]|e] w2]; [|done]. cbn [fst snd].
  destruct (strictly_equal _ _); unfold retries, events, completion; cbn [fst snd];
    intros Hcalls; rewrite impl_calls_entry, Hcalls;
    (split; [done|]); [by left|right; by eexists _, _].
Qed.

End Properties.

(** ** The properties on the concrete working tree *)

Section Examples.

Import Demo.


(** The same resolver and three crates: every resolver call fails with the
    signature, recovery filters all three upgrades away, and the fourth
    invocation, which has nothing left to ask the resolver, returns the lock
    file as a file addition. *)
Example creeping_recovers :
  completion (run creeping [] (request false (crates 3)) 10 (tree "x 1")) =
    Normal (Some [file_addition "Cargo.lock"
                    (Some {| ref := 6; bytes := "x 1;d1 2.0.0;d2 2.0.0;d3 2.0.0" |})]) ∧
  retries (events (run creeping [] (request false (crates 3)) 10 (tree "x 1"))) = 3 ∧
  length (exec_calls (events (run creeping [] (request false (crates 3)) 10 (tree "x 1")))) = 3.
Proof. vm_compute. done. Qed.


(** C2 at work: the resolver fails with the signature and leaves the lock
    file as it was, so the filter drops nothing and the call ends in the
    artifact error. *)
Lemma recovery_narrows_witness :
  run conflicts_idle [] (request false [foo]) 10 (tree "foo 1.0.0") =
  (Normal (Some [artifactError "Cargo.lock" "Command failed: cargo update"]),
   after 2 (tree "foo 1.0.0"),
   entry_events (request false [foo]) 10 ++
   events (try_block conflicts_idle [] (request false [foo]) (tree "foo 1.0.0")) ++
   [EvLog Debug "Failed to update Cargo lock file"]).
Proof.
  apply (proj2 (@recovery_narrows _ (collaborators conflicts_idle [])
                  (request false [foo]) 10 (tree "foo 1.0.0"))
           "Cargo.lock" (lock_buffer (tree "foo 1.0.0")) conflict (after 2 (tree "foo 1.0.0"))
           (events (try_block conflicts_idle [] (request false [foo]) (tree "foo 1.0.0")))
           "foo 1.0.0").
  - vm_compute; reflexivity.
  - right; discriminate.
  - vm_compute; reflexivity.
  - discriminate.
  - vm_compute; reflexivity.
  - vm_compute; lia.
Defined.

(** C3 at work: a failure without the signature. *)
Lemma terminal_error_without_recovery_witness :
  run breaks [] (request false [foo]) 10 (tree "foo 1.0.0") =
  (Normal (Some [artifactError "Cargo.lock" "Command failed"]),
   after 2 (tree "foo 1.0.0"),
   entry_events (request false [foo]) 10 ++
   events (try_block breaks [] (request false [foo]) (tree "foo 1.0.0")) ++
   [EvLog Debug "Failed to update Cargo lock file"]).
Proof.
  apply (@terminal_error_without_recovery _ (collaborators breaks [])
           (request false [foo]) 10 (tree "foo 1.0.0")
           "Cargo.lock" (lock_buffer (tree "foo 1.0.0"))
           {| message := "Command failed"; stderr := Some "error: no network" |}
           (after 2 (tree "foo 1.0.0"))
           (events (try_block breaks [] (request false [foo]) (tree "foo 1.0.0")))).
  - vm_compute; reflexivity.
  - right; discriminate.
  - vm_compute; reflexivity.
  - discriminate.
  - right. vm_compute; reflexivity.
Defined.

(** C4 at work: the resolver fails with the fatal message, and with the
    signature in its [stderr]. *)
Lemma fatal_passthrough_witness :
  completion (run fatal [] (request false [foo]) 10 (tree "foo 1.0.0")) =
    Throw {| message := "temporary-error";
             stderr := Some "error: package ID specification" |} ∧
  retries (events (run fatal [] (request false [foo]) 10 (tree "foo 1.0.0"))) = 0.
Proof.
  destruct (@fatal_passthrough _ (collaborators fatal [])
              (request false [foo]) 10 (tree "foo 1.0.0")
              "Cargo.lock" (lock_buffer (tree "foo 1.0.0"))
              {| message := "temporary-error";
                 stderr := Some "error: package ID specification" |}
              (after 2 (tree "foo 1.0.0"))
              (events (try_block fatal [] (request false [foo]) (tree "foo 1.0.0"))))
    as [Hrun Hretries].
  - vm_compute; reflexivity.
  - right; discriminate.
  - vm_compute; reflexivity.
  - reflexivity.
  - unfold run. rewrite Hrun. split; [reflexivity|vm_compute; reflexivity].
Defined.

(** C5 at work: two crates with locked versions. *)
Lemma strategy_selection_witness :
  exec_calls (events (@invokeResolver _ (collaborators idle [])
                        (request false [foo; bar]) (tree "foo 1.0.0;bar 2.0.0"))) =
  [["cargo update --config net.git-fetch-with-cli=true --manifest-path Cargo.toml --workspace";
    "cargo update --config net.git-fetch-with-cli=true --manifest-path Cargo.toml --package foo@1.0.0 --precise 1.1.0";
    "cargo update --config net.git-fetch-with-cli=true --manifest-path Cargo.toml --package bar@2.0.0 --precise 2.1.0"]].
Proof.
  apply (proj1 (proj2 (@strategy_selection _ (collaborators idle [])
                         (request false [foo; bar]) (tree "foo 1.0.0;bar 2.0.0")))).
  - reflexivity.
  - repeat constructor; by eexists.
Defined.

(** C6 at work: a lock file maintenance on a lock file that is up to date.
    The resolver succeeds and leaves every file as it is; the lock file holds
    the same bytes before and after the call, and the call returns it as a
    file addition. *)
Lemma byte_identical_lock_file_is_addition_witness :
  fs_readLocalFile (Collaborators := collaborators idle []) "Cargo.lock" (tree "foo 1.1.0") =
    Some "foo 1.1.0" ∧
  fs_readLocalFile (Collaborators := collaborators idle []) "Cargo.lock"
    (world (run idle [] (request true []) 10 (tree "foo 1.1.0"))) = Some "foo 1.1.0" ∧
  completion (run idle [] (request true []) 10 (tree "foo 1.1.0")) =
    Normal (Some [file_addition "Cargo.lock" (Some {| ref := 2; bytes := "foo 1.1.0" |})]) ∧
  completion (run idle [] (request true []) 10 (tree "foo 1.1.0")) ≠ Normal None.
Proof.
  split; [vm_compute; reflexivity|]. split; [vm_compute; reflexivity|].
  apply (@byte_identical_lock_file_is_addition _ (collaborators idle [])
           (request true []) 10 (tree "foo 1.1.0")
           "Cargo.lock" (lock_buffer (tree "foo 1.1.0"))
           (after 1 (tree "foo 1.1.0")) (after 2 (tree "foo 1.1.0"))
           (events (@invokeResolver _ (collaborators idle [])
                      (request true []) (after 1 (tree "foo 1.1.0"))))
           {| ref := 2; bytes := "foo 1.1.0" |}).
  - vm_compute; reflexivity.
  - left; reflexivity.
  - vm_compute; reflexivity.
  - vm_compute; reflexivity.
  - vm_compute; reflexivity.
  - vm_compute; reflexivity.
  - vm_compute; discriminate.
Defined.

(** C7 at work: a manifest alone in its tree. *)
Lemma no_lock_file_short_circuit_witness :
  completion (run (resolves "foo 1.1.0") [] (request false [foo]) 10 manifest_only) =
    Normal None ∧
  world (run (resolves "foo 1.1.0") [] (request false [foo]) 10 manifest_only) =
    manifest_only ∧
  write_calls (events (run (resolves "foo 1.1.0") [] (request false [foo]) 10
                         manifest_only)) = [] ∧
  exec_calls (events (run (resolves "foo 1.1.0") [] (request false [foo]) 10
                        manifest_only)) = [].
Proof.
  apply (@no_lock_file_short_circuit _ (collaborators (resolves "foo 1.1.0") [])
           (request false [foo]) 10 manifest_only).
  vm_compute; reflexivity.
Defined.

(** An empty lock file is a lock file: the read returns an object, the test of
    line 98 passes, and the call goes on to write the manifest and run the
    resolver. *)
Example empty_lock_file_is_processed :
  completion (run idle [] (request false [foo]) 10 (tree "")) =
    Normal (Some [file_addition "Cargo.lock" (Some {| ref := 2; bytes := "" |})]) ∧
  length (write_calls (events (run idle [] (request false [foo]) 10 (tree "")))) = 1 ∧
  length (exec_calls (events (run idle [] (request false [foo]) 10 (tree "")))) = 1.
Proof. vm_compute. done. Qed.

(** C8 as stated fails: the manifest cannot be written, the error is not the
    fatal one, and the call returns an artifact error instead of throwing. *)
Lemma manifest_write_failure_counterexample :
  fs_writeLocalFile (Collaborators := collaborators idle ["Cargo.toml"])
    "Cargo.toml" "[dependencies]" (tree "foo 1.0.0") =
    (Throw {| message := "EACCES: permission denied"; stderr := None |}, tree "foo 1.0.0") ∧
  completion (run idle ["Cargo.toml"] (request false [foo]) 10 (tree "foo 1.0.0")) =
    Normal (Some [artifactError "Cargo.lock" "EACCES: permission denied"]) ∧
  completion (run idle ["Cargo.toml"] (request false [foo]) 10 (tree "foo 1.0.0")) ≠
    Throw {| message := "EACCES: permission denied"; stderr := None |}.
Proof.
  split; [vm_compute; reflexivity|]. split; [vm_compute; reflexivity|].
  vm_compute. discriminate.
Qed.

(** C8 as amended, at work on the same tree. *)
Lemma manifest_write_failure_is_handled_witness :
  run idle ["Cargo.toml"] (request false [foo]) 10 (tree "foo 1.0.0") =
  (Normal (Some [artifactError "Cargo.lock" "EACCES: permission denied"]),
   tree "foo 1.0.0",
   entry_events (request false [foo]) 10 ++
   [EvWriteLocalFile "Cargo.toml" "[dependencies]";
    EvLog Debug "Failed to update Cargo lock file"]).
Proof.
  apply (proj2 (@manifest_write_failure_is_handled _ (collaborators idle ["Cargo.toml"])
                  (request false [foo]) 10 (tree "foo 1.0.0")
                  "Cargo.lock" (lock_buffer (tree "foo 1.0.0"))
                  {| message := "EACCES: permission denied"; stderr := None |}
                  (tree "foo 1.0.0")
                  ltac:(vm_compute; reflexivity)
                  ltac:(right; discriminate)
                  ltac:(vm_compute; reflexivity))).
  - discriminate.
  - vm_compute; reflexivity.
Defined.

(** C9 at work, the scenario of the specification: the resolver fails on
    [foo@1.0.0] after [foo] has reached 1.1.0. *)
Lemma retry_with_nothing_left_witness :
  completion (run (conflicts "foo 1.1.0") [] (request false [foo]) 10 (tree "foo 1.0.0")) =
    Normal (Some [file_addition "Cargo.lock" (Some {| ref := 2; bytes := "foo 1.1.0" |})]) ∧
  length (exec_calls (events
    (run (conflicts "foo 1.1.0") [] (request false [foo]) 10 (tree "foo 1.0.0")))) = 1.
Proof.
  pose proof (@retry_with_nothing_left _ (collaborators (conflicts "foo 1.1.0") [])
                (request false [foo]) 9 (tree "foo 1.0.0")
                "Cargo.lock" (lock_buffer (tree "foo 1.0.0")) conflict
                (after 2 (tree "foo 1.1.0"))
                (events (try_block (conflicts "foo 1.1.0") [] (request false [foo])
                           (tree "foo 1.0.0")))
                "foo 1.1.0" "Cargo.lock" {| ref := 2; bytes := "foo 1.1.0" |}
                ltac:(vm_compute; reflexivity)
                ltac:(reflexivity)
                ltac:(discriminate)
                ltac:(vm_compute; reflexivity)
                ltac:(discriminate)
                ltac:(vm_compute; reflexivity)
                ltac:(vm_compute; reflexivity)
                ltac:(vm_compute; reflexivity)
                ltac:(vm_compute; reflexivity)) as Hrun.
  unfold run. rewrite Hrun. split; [reflexivity|vm_compute; reflexivity].
Defined.

(** C10 at work: the lock file has [foo] at its new version and says nothing
    of [bar]; [bar] stays. *)
Lemma filter_keeps_unlocked_witness :
  bar ∈ filterUpdatedDeps (extract "foo 1.1.0") [foo; bar] ∧
  filterUpdatedDeps (extract "foo 1.1.0") [foo; bar] = [bar].
Proof.
  split; [|vm_compute; reflexivity].
  apply (proj2 (proj2 (filter_keeps_unlocked (extract "foo 1.1.0") [foo; bar] bar))).
  - apply list_elem_of_further, list_elem_of_here.
  - vm_compute; reflexivity.
Defined.

End Examples.

(** ** The further properties on the concrete working tree *)

Module MoreExamples.

Import Demo.

(** X1 at work: the resolver fails with the fatal message. *)
Lemma only_fatal_errors_escape_witness :
  message {| message := "temporary-error";
             stderr := Some "error: package ID specification" |} =
  TEMPORARY_ERROR (Collaborators := collaborators fatal []).
Proof.
  apply (@only_fatal_errors_escape _ (collaborators fatal [])
           (request false [foo]) 10 (tree "foo 1.0.0")).
  vm_compute; reflexivity.
Defined.

(** X2 at work: the resolver brings [foo] to its new version. *)
Lemma result_shape_witness :
  Some [file_addition "Cargo.lock" (Some {| ref := 2; bytes := "foo 1.1.0" |})] = None ∨
  ∃ lockFile,
    (∃ contents,
       Some [file_addition "Cargo.lock" (Some {| ref := 2; bytes := "foo 1.1.0" |})] =
       Some [file_addition lockFile contents]) ∨
    (∃ msg,
       Some [file_addition "Cargo.lock" (Some {| ref := 2; bytes := "foo 1.1.0" |})] =
       Some [artifactError lockFile msg]).
Proof.
  apply (@result_shape _ (collaborators (resolves "foo 1.1.0") [])
           (request false [foo]) 10 (tree "foo 1.0.0")).
  vm_compute; reflexivity.
Defined.

(** X3 at work, the first scenario of the specification. *)
Lemma changed_lock_file_is_addition_witness :
  run (resolves "foo 1.1.0") [] (request false [foo]) 10 (tree "foo 1.0.0") =
  (Normal (Some [file_addition "Cargo.lock" (Some {| ref := 2; bytes := "foo 1.1.0" |})]),
   after 2 (tree "foo 1.1.0"),
   entry_events (request false [foo]) 10 ++
   [EvWriteLocalFile "Cargo.toml" "[dependencies]"; EvLog Debug "Updating Cargo.lock"] ++
   events (@invokeResolver _ (collaborators (resolves "foo 1.1.0") [])
             (request false [foo]) (after 1 (tree "foo 1.0.0"))) ++
   [EvLog Debug "Returning updated Cargo.lock"]).
Proof.
  eapply eq_trans.
  - apply (@changed_lock_file_is_addition _ (collaborators (resolves "foo 1.1.0") [])
             (request false [foo]) 10 (tree "foo 1.0.0")
             "Cargo.lock" (lock_buffer (tree "foo 1.0.0"))
             (after 1 (tree "foo 1.0.0")) (after 2 (tree "foo 1.1.0"))
             (events (@invokeResolver _ (collaborators (resolves "foo 1.1.0") [])
                        (request false [foo]) (after 1 (tree "foo 1.0.0"))))).
    + vm_compute; reflexivity.
    + right; discriminate.
    + vm_compute; reflexivity.
    + vm_compute; reflexivity.
    + vm_compute; reflexivity.
  - vm_compute; reflexivity.
Defined.

(** X4 at work: no upgrade, no maintenance. *)
Lemma nothing_to_update_witness :
  run (resolves "foo 1.1.0") [] (request false []) 10 (tree "foo 1.0.0") =
  (Normal (Some [file_addition "Cargo.lock" (Some {| ref := 0; bytes := "foo 1.0.0" |})]),
   tree "foo 1.0.0",
   entry_events (request false []) 10 ++ [EvLog Debug "No more dependencies to update"]).
Proof.
  apply (@nothing_to_update _ (collaborators (resolves "foo 1.1.0") [])
           (request false []) 10 (tree "foo 1.0.0")
           "Cargo.lock" {| ref := 0; bytes := "foo 1.0.0" |}).
  - vm_compute; reflexivity.
  - reflexivity.
  - reflexivity.
Defined.

(** X6 at work: a maintenance that fails with the signature once [foo] is at
    its new version, retries without upgrades and fails again. *)
Lemma maintenance_never_pins_witness :
  exec_calls (events (run (conflicts "foo 1.1.0") [] (request true [foo]) 10 (tree "foo 1.0.0"))) =
    [["cargo update --config net.git-fetch-with-cli=true --manifest-path Cargo.toml"];
     ["cargo update --config net.git-fetch-with-cli=true --manifest-path Cargo.toml"]] ∧
  Forall (λ cmds,
      cmds = ["cargo update --config net.git-fetch-with-cli=true --manifest-path Cargo.toml"])
    (exec_calls (events (run (conflicts "foo 1.1.0") [] (request true [foo]) 10 (tree "foo 1.0.0")))).
Proof.
  split; [vm_compute; reflexivity|].
  apply (@maintenance_never_pins _ (collaborators (conflicts "foo 1.1.0") [])
           (request true [foo]) 10 (tree "foo 1.0.0")).
  reflexivity.
Defined.

(** X9 at work: after the failure [foo] is at its new version and [bar] is
    not, and the call ends as the call for [bar] alone does on the tree the
    failure left. *)
Lemma recovery_step_witness :
  run (conflicts "foo 1.1.0") [] (request false [foo; bar]) 10 (tree "foo 1.0.0;bar 2.0.0") =
  (completion (run (conflicts "foo 1.1.0") [] (request false [bar]) 9
                 (after 2 (tree "foo 1.1.0"))),
   world (run (conflicts "foo 1.1.0") [] (request false [bar]) 9
            (after 2 (tree "foo 1.1.0"))),
   entry_events (request false [foo; bar]) 10 ++
   events (try_block (conflicts "foo 1.1.0") [] (request false [foo; bar])
             (tree "foo 1.0.0;bar 2.0.0")) ++
   EvLog Debug "Dependency already up to date - reattempting recursively" ::
   events (run (conflicts "foo 1.1.0") [] (request false [bar]) 9
             (after 2 (tree "foo 1.1.0")))).
Proof.
  apply (@recovery_step _ (collaborators (conflicts "foo 1.1.0") [])
           (request false [foo; bar]) 9 (tree "foo 1.0.0;bar 2.0.0")
           "Cargo.lock" (lock_buffer (tree "foo 1.0.0;bar 2.0.0")) conflict
           (after 2 (tree "foo 1.1.0"))
           (events (try_block (conflicts "foo 1.1.0") [] (request false [foo; bar])
                      (tree "foo 1.0.0;bar 2.0.0")))
           "foo 1.1.0").
  - vm_compute; reflexivity.
  - right; discriminate.
  - vm_compute; reflexivity.
  - discriminate.
  - vm_compute; reflexivity.
  - vm_compute; reflexivity.
  - vm_compute; lia.
Defined.

(** X10 at work: the same failure with the recursion limit at zero. *)
Lemma exhausted_budget_is_terminal_witness :
  run (conflicts "foo 1.1.0") [] (request false [foo; bar]) 0 (tree "foo 1.0.0;bar 2.0.0") =
  (Normal (Some [artifactError "Cargo.lock" "Command failed: cargo update"]),
   after 2 (tree "foo 1.1.0"),
   entry_events (request false [foo; bar]) 0 ++
   events (try_block (conflicts "foo 1.1.0") [] (request false [foo; bar])
             (tree "foo 1.0.0;bar 2.0.0")) ++
   [EvLog Debug "Failed to update Cargo lock file"]).
Proof.
  apply (@exhausted_budget_is_terminal _ (collaborators (conflicts "foo 1.1.0") [])
           (request false [foo; bar]) (tree "foo 1.0.0;bar 2.0.0")
           "Cargo.lock" (lock_buffer (tree "foo 1.0.0;bar 2.0.0")) conflict
           (after 2 (tree "foo 1.1.0"))
           (events (try_block (conflicts "foo 1.1.0") [] (request false [foo; bar])
                      (tree "foo 1.0.0;bar 2.0.0")))).
  - vm_compute; reflexivity.
  - right; discriminate.
  - vm_compute; reflexivity.
  - discriminate.
Defined.

(** X11 at work: the same failure with an extractor that returns [null]. *)
Lemma unparsable_lock_file_stops_recovery_witness :
  @updateArtifactsImpl _ (unparsed_collaborators (conflicts "foo 1.1.0"))
    (request false [foo]) 10 (tree "foo 1.0.0") =
  (Normal (Some [artifactError "Cargo.lock" "Command failed: cargo update"]),
   after 2 (tree "foo 1.1.0"),
   entry_events (request false [foo]) 10 ++
   events (@attempt _ (unparsed_collaborators (conflicts "foo 1.1.0"))
             (request false [foo]) "Cargo.lock" (lock_buffer (tree "foo 1.0.0"))
             (tree "foo 1.0.0")) ++
   [EvLog Debug "Failed to update Cargo lock file"]).
Proof.
  apply (@unparsable_lock_file_stops_recovery _
           (unparsed_collaborators (conflicts "foo 1.1.0"))
           (request false [foo]) 10 (tree "foo 1.0.0")
           "Cargo.lock" (lock_buffer (tree "foo 1.0.0")) conflict
           (after 2 (tree "foo 1.1.0"))
           (events (@attempt _ (unparsed_collaborators (conflicts "foo 1.1.0"))
                      (request false [foo]) "Cargo.lock" (lock_buffer (tree "foo 1.0.0"))
                      (tree "foo 1.0.0")))
           "foo 1.1.0").
  - vm_compute; reflexivity.
  - right; discriminate.
  - vm_compute; reflexivity.
  - discriminate.
  - vm_compute; reflexivity.
  - reflexivity.
Defined.

(** X12 at work: the retry for [bar] alone fails and leaves the lock file as
    the first failure did. *)
Lemma stalled_recovery_is_terminal_witness :
  run conflicts_idle [] (request false [bar]) 9 (tree "foo 1.1.0") =
  (Normal (Some [artifactError "Cargo.lock" "Command failed: cargo update"]),
   after 2 (tree "foo 1.1.0"),
   entry_events (request false [bar]) 9 ++
   events (try_block conflicts_idle [] (request false [bar]) (tree "foo 1.1.0")) ++
   [EvLog Debug "Failed to update Cargo lock file"]).
Proof.
  apply (@stalled_recovery_is_terminal _ (collaborators conflicts_idle [])
           (request false [bar]) 9 (tree "foo 1.1.0")
           "Cargo.lock" (lock_buffer (tree "foo 1.1.0")) conflict
           (after 2 (tree "foo 1.1.0"))
           (events (try_block conflicts_idle [] (request false [bar]) (tree "foo 1.1.0")))
           "foo 1.1.0" "foo 1.1.0" [foo; bar]).
  - vm_compute; reflexivity.
  - right; discriminate.
  - vm_compute; reflexivity.
  - discriminate.
  - vm_compute; reflexivity.
  - vm_compute; reflexivity.
  - reflexivity.
Defined.

(** X14 at work: a resolver that always succeeds. *)
Lemma healthy_resolver_never_errors_witness :
  retries (events (run (resolves "foo 1.1.0") [] (request false [foo]) 10 (tree "foo 1.0.0"))) = 0 ∧
  (completion (run (resolves "foo 1.1.0") [] (request false [foo]) 10 (tree "foo 1.0.0")) =
     Normal None ∨
   ∃ lockFile contents,
     completion (run (resolves "foo 1.1.0") [] (request false [foo]) 10 (tree "foo 1.0.0")) =
     Normal (Some [file_addition lockFile contents])).
Proof.
  apply (@healthy_resolver_never_errors _ (collaborators (resolves "foo 1.1.0") [])
           (request false [foo]) 10 (tree "foo 1.0.0")).
  - intros name content w0. reflexivity.
  - intros cmds opts w0. reflexivity.
Defined.

End MoreExamples.

(** ** Properties of the GitLab helpers *)

Section GitlabProperties.

Import Gitlab.

Context {World : Type} `{GitlabHttp World}.

Lemma request_run {A : Type} (get : string -> World -> Completion A * World) url (w : World) :
  request get url w = ((get url w).1, (get url w).2, []).
Proof. unfold request. by destruct (get url w). Qed.

(** X15: [isUserBusy] never throws.  It answers [true] exactly when the
    status request succeeded with availability [busy]; when the request
    fails it answers [false] and logs one warning. *)
Theorem isUserBusy_never_throws (user : string) (w : World) :
  ∃ busy,
    completion (isUserBusy user w) = Normal busy ∧
    (busy = true ↔
     ∃ status,
       (getJsonUnchecked_status ("/users/" +:+ user +:+ "/status") w).1 = Normal status ∧
       availability status = "busy") ∧
    (∀ e,
       (getJsonUnchecked_status ("/users/" +:+ user +:+ "/status") w).1 = Throw e →
       busy = false ∧
       events (isUserBusy user w) = [EvLog Warn "Failed to get user status"]).
Proof.
  unfold isUserBusy, try_catch, mbind, M_bind, mret, M_ret, logger_warn, emit.
  cbn zeta. rewrite request_run.
  destruct (getJsonUnchecked_status _ w) as [[status|e] w1]; cbn [fst snd].
  - exists (bool_decide (availability status = "busy")). split; [done|]. split; [|done].
    rewrite bool_decide_eq_true. split.
    + intros Hbusy. by exists status.
    + by intros (status' & [= <-] & Hbusy).
  - exists false. split; [done|]. split; [|done].
    split; [done|]. by intros (? & [=] & _).
Qed.

(** X16: [getUserID] returns an id exactly when the request lists at least
    one user, and then the id of the first one listed; on an empty list it
    throws the error that names the user, and a failed request is thrown
    on. *)
Theorem getUserID_first_or_error (username : string) (w : World) :
  (∀ n,
     completion (getUserID username w) = Normal n ↔
     ∃ first others,
       (getJsonUnchecked_userInfo ("users?username=" +:+ username) w).1 =
         Normal (first :: others) ∧
       n = UserInfo.id first) ∧
  ((getJsonUnchecked_userInfo ("users?username=" +:+ username) w).1 = Normal [] →
   completion (getUserID username w) =
   Throw {|
     message := "User ID for the username: " +:+ username +:+ " could not be found.";
     stderr := None;
   |}) ∧
  (∀ e,
     (getJsonUnchecked_userInfo ("users?username=" +:+ username) w).1 = Throw e →
     completion (getUserID username w) = Throw e).
Proof.
  unfold getUserID, mbind, M_bind, mret, M_ret, throw. rewrite request_run.
  destruct (getJsonUnchecked_userInfo _ w) as [[[|first others]|e] w1]; cbn [fst snd];
    unfold completion; cbn [fst snd].
  - split; [|done]. intros n. split; [done|]. by intros (? & ? & [=] & _).
  - split; [|done]. intros n. split.
    + intros [= <-]. by exists first, others.
    + by intros (? & ? & [= <- _] & ->).
  - split; [|split; [done|by intros ? [= <-]]].
    intros n. split; [done|]. by intros (? & ? & [=] & _).
Qed.

(** X17: the two member lists of a group are the two columns of the
    server's one answer.  Both helpers ask for
    [groups/<encoded group>/members]; when the server answers with
    [members], [getMemberUserIDs] returns the ids of exactly those members
    and [getMemberUsernames] their user names, each in the order of the
    answer, so that the entries at one index belong to one member; when the
    request fails, both throw its error. *)
Theorem member_lists_aligned (group : string) (w : World) :
  match (getJsonUnchecked_members
           ("groups/" +:+ encodeURIComponent group +:+ "/members") w).1 with
  | Normal members =>
    completion (getMemberUserIDs group w) = Normal (map GitLabUser.id members) ∧
    completion (getMemberUsernames group w) = Normal (map GitLabUser.username members)
  | Throw e =>
    completion (getMemberUserIDs group w) = Throw e ∧
    completion (getMemberUsernames group w) = Throw e
  end.
Proof.
  unfold getMemberUserIDs, getMemberUsernames, getMembers, mbind, M_bind, mret, M_ret.
  cbn zeta. rewrite request_run.
  by destruct (getJsonUnchecked_members _ w) as [[members|e] w1].
Qed.

End GitlabProperties.

(** ** Properties of the Maven wrapper extraction *)

Section MavenWrapperProperties.

Import MavenWrapper.

Context `{RegexEngine}.

Lemma extractLineInfo_line_None line regexs :
  extractLineInfo_line line regexs = None ↔
  ∀ r, r ∈ regexs →
    str_match line r = false ∨ ∀ groups, regex_exec r line ≠ Some (Some groups).
Proof.
  induction regexs as [|regex regexs IH]; cbn [extractLineInfo_line].
  - split; [|done]. intros _ r Hr. by apply elem_of_nil in Hr.
  - destruct (str_match line regex) eqn:Hmatch.
    + destruct (regex_exec regex line) as [[groups|]|] eqn:Hexec.
      * split; [done|]. intros Hall.
        destruct (Hall regex) as [?|Hnone]; [by left|congruence|].
        by destruct (Hnone groups).
      * rewrite IH. split.
        -- intros Hall r [->|Hr]%elem_of_cons; [right; congruence|by apply Hall].
        -- intros Hall r Hr. apply Hall. by right.
      * rewrite IH. split.
        -- intros Hall r [->|Hr]%elem_of_cons; [right; congruence|by apply Hall].
        -- intros Hall r Hr. apply Hall. by right.
    + rewrite IH. split.
      * intros Hall r [->|Hr]%elem_of_cons; [by left|by apply Hall].
      * intros Hall r Hr. apply Hall. by right.
Qed.

(** X18: the first line wins, and on that line the first pattern.  When no
    pattern matches any line before [line], and on [line] the patterns before
    [regex] do not match while [regex] does, with groups, the result is made
    of the groups [replaceString] and [version] of that match, whatever the
    later patterns and the later lines are. *)
Theorem extractLineInfo_first_line_wins (before after : list string) (line : string)
    (skipped rest : list RegExp) (regex : RegExp) (groups : gmap string string) :
  (∀ l r, l ∈ before → r ∈ skipped ++ regex :: rest → str_match l r = false) →
  (∀ r, r ∈ skipped → str_match line r = false) →
  str_match line regex = true →
  regex_exec regex line = Some (Some groups) →
  extractLineInfo (before ++ line :: after) (skipped ++ regex :: rest) =
  Some {|
    Version.replaceString := groups !! "replaceString";
    Version.version := groups !! "version";
  |}.
Proof.
  intros Hbefore Hskipped Hmatch Hexec.
  assert (extractLineInfo_line line (skipped ++ regex :: rest) =
          Some {| Version.replaceString := groups !! "replaceString";
                  Version.version := groups !! "version" |}) as Hline.
  { clear Hbefore. induction skipped as [|r skipped IH]; cbn [app extractLineInfo_line].
    - by rewrite Hmatch, Hexec.
    - rewrite (Hskipped r) by by left. apply IH. intros r' Hr'. apply Hskipped. by right. }
  induction before as [|l before IH]; cbn [app extractLineInfo].
  - by rewrite Hline.
  - assert (extractLineInfo_line l (skipped ++ regex :: rest) = None) as ->.
    { apply extractLineInfo_line_None. intros r Hr. left. apply Hbefore; [by left|done]. }
    apply IH. intros l' r Hl' Hr. apply Hbefore; [by right|done].
Qed.

(** X19: [extractLineInfo] returns [null] exactly when, on every line, every
    pattern fails to match or matches without groups. *)
Theorem extractLineInfo_null_iff (lines : list string) (regexs : list RegExp) :
  extractLineInfo lines regexs = None ↔
  ∀ line r, line ∈ lines → r ∈ regexs →
    str_match line r = false ∨ ∀ groups, regex_exec r line ≠ Some (Some groups).
Proof.
  induction lines as [|line lines IH]; cbn [extractLineInfo].
  - split; [|done]. intros _ line r Hline. by apply elem_of_nil in Hline.
  - destruct (extractLineInfo_line line regexs) as [info|] eqn:Hline.
    + split; [done|]. intros Hall.
      assert (extractLineInfo_line line regexs = None) as Hnone; [|congruence].
      apply extractLineInfo_line_None. intros r Hr. apply Hall; [by left|done].
    + rewrite IH. split.
      * intros Hall l r [->|Hl]%elem_of_cons Hr; [|by apply Hall].
        by apply (proj1 (extractLineInfo_line_None line regexs) Hline).
      * intros Hall l r Hl Hr. apply Hall; [by right|done].
Qed.

(** X20: what [extractPackageFile] returns.  It is [null] exactly when
    neither the distribution nor the wrapper has a truthy version; otherwise
    the dependencies are one or two, [maven] before [maven-wrapper] and
    neither twice, each with the Maven datasource and versioning and with a
    truthy current value. *)
Theorem extractPackageFile_deps (fileContent : string) :
  match extractPackageFile fileContent with
  | None =>
    asTruthy (maven (extractVersions fileContent) ≫= Version.version) = None ∧
    asTruthy (wrapper (extractVersions fileContent) ≫= Version.version) = None
  | Some packageFile =>
    (is_Some (asTruthy (maven (extractVersions fileContent) ≫= Version.version)) ∨
     is_Some (asTruthy (wrapper (extractVersions fileContent) ≫= Version.version))) ∧
    deps packageFile ≠ [] ∧
    sublist (map PackageDependency.depName (deps packageFile)) ["maven"; "maven-wrapper"] ∧
    Forall (λ dep,
        PackageDependency.datasource dep = MavenDatasource_id ∧
        PackageDependency.versioning dep = versioning_id ∧
        is_Some (asTruthy (PackageDependency.currentValue dep)))
      (deps packageFile)
  end.
Proof.
  unfold extractPackageFile. cbn zeta.
  destruct (asTruthy (maven (extractVersions fileContent) ≫= Version.version))
    as [mavenVersion|] eqn:Hmaven;
  destruct (asTruthy (wrapper (extractVersions fileContent) ≫= Version.version))
    as [wrapperVersion|] eqn:Hwrapper.
  all: rewrite ?bool_decide_eq_true_2 by by eexists.
  all: rewrite ?bool_decide_eq_false_2 by by intros [? [=]].
  all: cbn [app length Nat.eqb deps map].
  - split; [left; by eexists|]. split; [done|]. split; [done|].
    repeat constructor; cbn; by rewrite ?Hmaven, ?Hwrapper.
  - split; [left; by eexists|]. split; [done|].
    split; [apply sublist_skip, sublist_nil_l|].
    repeat constructor; cbn; by rewrite ?Hmaven.
  - split; [right; by eexists|]. split; [done|].
    split; [apply sublist_cons, sublist_skip, sublist_nil|].
    repeat constructor; cbn; by rewrite ?Hwrapper.
  - done.
Qed.

(** X21: a file none of whose lines matches any of the three patterns has no
    dependency: [extractPackageFile] returns [null]. *)
Theorem extractPackageFile_without_match (fileContent : string) :
  (∀ line r,
     line ∈ str_split fileContent newlineRegex →
     r ∈ [DISTRIBUTION_URL_REGEX; WRAPPER_URL_REGEX; WRAPPER_VERSION_REGEX] →
     str_match line r = false) →
  extractPackageFile fileContent = None.
Proof.
  intros Hnone. unfold extractPackageFile, extractVersions. cbn zeta.
  cbn [maven wrapper coerceArray].
  assert (extractLineInfo (str_split fileContent newlineRegex) [DISTRIBUTION_URL_REGEX]
          = None) as ->.
  { apply extractLineInfo_null_iff. intros line r Hline Hr%list_elem_of_singleton.
    left. apply Hnone; [done|]. subst r. by left. }
  assert (extractLineInfo (str_split fileContent newlineRegex)
            [WRAPPER_URL_REGEX; WRAPPER_VERSION_REGEX] = None) as ->.
  { apply extractLineInfo_null_iff. intros line r Hline Hr.
    left. apply Hnone; [done|]. by right. }
  reflexivity.
Qed.

End MavenWrapperProperties.

(** ** The extraction on the toy engine *)

Module WrapperExamples.

Import MavenWrapper.

#[local] Existing Instance toy_engine.

(** X18 at work: a [wrapperVersion] line above a [wrapperUrl] line.  The
    version comes from the upper line, although its pattern is the second of
    the two. *)
Lemma extractLineInfo_first_line_wins_witness :
  extractLineInfo ["foo=1"; "wrapperVersion=3.2.0"; "wrapperUrl=3.1.0"]
    [WRAPPER_URL_REGEX; WRAPPER_VERSION_REGEX] =
  Some {| Version.replaceString := Some "3.2.0"; Version.version := Some "3.2.0" |}.
Proof.
  eapply eq_trans.
  - apply (extractLineInfo_first_line_wins ["foo=1"] ["wrapperUrl=3.1.0"]
             "wrapperVersion=3.2.0" [WRAPPER_URL_REGEX] [] WRAPPER_VERSION_REGEX
             {[ "replaceString" := "3.2.0"; "version" := "3.2.0" ]}).
    + intros l r ->%list_elem_of_singleton [->| ->%list_elem_of_singleton]%elem_of_cons;
        vm_compute; reflexivity.
    + intros r ->%list_elem_of_singleton. vm_compute; reflexivity.
    + vm_compute; reflexivity.
    + vm_compute; reflexivity.
  - vm_compute; reflexivity.
Defined.

(** X21 at work: a properties file without any of the three keys. *)
Lemma extractPackageFile_without_match_witness :
  extractPackageFile "foo=1;bar=2" = None.
Proof.
  apply extractPackageFile_without_match.
  intros line r Hline Hr.
  assert (line = "foo=1" ∨ line = "bar=2") as [-> | ->].
  { vm_compute in Hline. apply elem_of_cons in Hline as [->|Hline]; [by left|].
    apply list_elem_of_singleton in Hline as ->. by right. }
  all: apply elem_of_cons in Hr as [->|Hr]; [vm_compute; reflexivity|].
  all: apply elem_of_cons in Hr as [->|Hr]; [vm_compute; reflexivity|].
  all: apply list_elem_of_singleton in Hr as ->; vm_compute; reflexivity.
Defined.

End WrapperExamples.
